(** * ztls cipher suites: a shallow embedding of [ztools/ztls/cipher_suites.go]

    The development follows the Go file top to bottom: the run-time
    behaviour the file relies on (slices, [copy], panics), the standard
    library constructors it calls, the MAC objects, the fixed-nonce AEAD
    wrapper, the suite table, [mutualCipherSuite], the identifier lists
    and [cipherInList].  Integers are [Z]; a [uint16] identifier is the
    [Z] of its value; a byte slice is a [list byte] whose capacity equals
    its length. *)

From Stdlib Require Import String.
From Stdlib Require Import ZArith List Bool Lia.
From Stdlib Require Import Init.Byte.
Import ListNotations.
Open Scope Z_scope.

Set Implicit Arguments.

Definition bytes := list byte.

(** ** Go run time: panics, slices, [copy] *)

(** The [error] values that occur: the key-size errors of [crypto/rc4],
    [crypto/aes] and [crypto/des], and the two errors of GCM. *)
Inductive error : Type :=
| KeySizeError (k : Z)
| errGCMBlockSize
| errOpen.

(** A [(T, error)] result of a constructor: the value or the error. *)
Inductive result (A : Type) : Type :=
| Ok (a : A)
| Err (e : error).
Arguments Err {A} e.

(** The value of [v, _ := f(...)]: nil when [f] failed. *)
Definition valueOrNil {A} (r : result A) : option A :=
  match r with
  | Ok a => Some a
  | Err _ => None
  end.

(** What a panic carries: a run-time error, or the value given to
    [panic], an [error] or a message. *)
Inductive panicValue : Type :=
| SliceOutOfRange
| NilDereference
| PanicError (e : error)
| PanicMessage (msg : string).

(** A call either returns a value or panics. *)
Inductive outcome (A : Type) : Type :=
| Returned (a : A)
| Panicked (v : panicValue).
Arguments Panicked {A} v.

Definition bind {A B} (o : outcome A) (k : A -> outcome B) : outcome B :=
  match o with
  | Returned a => k a
  | Panicked v => Panicked v
  end.

Notation "x <- o ;; k" := (bind o (fun x => k))
  (at level 61, o at next level, right associativity).

Definition panics {A} (o : outcome A) : bool :=
  match o with
  | Returned _ => false
  | Panicked _ => true
  end.

Definition len {A} (s : list A) : Z := Z.of_nat (length s).

(** [s[lo:hi]]: panics unless [0 <= lo <= hi <= cap(s)]. *)
Definition slice {A} (s : list A) (lo hi : Z) : outcome (list A) :=
  if (0 <=? lo) && (lo <=? hi) && (hi <=? len s)
  then Returned (firstn (Z.to_nat (hi - lo)) (skipn (Z.to_nat lo) s))
  else Panicked SliceOutOfRange.

(** [s[lo:]] is [s[lo:len(s)]]. *)
Definition slice_from {A} (s : list A) (lo : Z) : outcome (list A) :=
  slice s lo (len s).

(** [s[:hi]] is [s[0:hi]]. *)
Definition slice_to {A} (s : list A) (hi : Z) : outcome (list A) :=
  slice s 0 hi.

(** [copy(dst, src)]: the first [min(len(dst), len(src))] elements of
    [dst] are overwritten, the rest of [dst] is kept.  The result is the
    new content of [dst]. *)
Definition copy {A} (dst src : list A) : list A :=
  firstn (length dst) src ++ skipn (length src) dst.

(** [copy(buf[off:], src)]: the copy lands in [buf] itself, since the
    slice expression shares the array of [buf]. *)
Definition copy_from {A} (buf : list A) (off : Z) (src : list A)
  : outcome (list A) :=
  tail <- slice_from buf off ;;
  Returned (firstn (Z.to_nat off) buf ++ copy tail src).

(** [make([]byte, n)]. *)
Definition make (n : nat) : bytes := repeat x00 n.

(** ** Standard library objects and constructors used by the file

    Objects are represented by the data that determines them (the key a
    cipher was built from, the bytes written to a hash).  What the
    cryptographic primitives compute is left abstract: see [Primitives]. *)

Module cipher.

(** [cipher.Block] values: the two block ciphers the file constructs. *)
Inductive Block : Type :=
| aesCipher (key : bytes)
| tripleDESCipher (key : bytes).

Definition BlockSize (b : Block) : Z :=
  match b with
  | aesCipher _ => 16
  | tripleDESCipher _ => 8
  end.

(** [cipher.BlockMode] values returned by the CBC constructors; each
    keeps its own copy of the IV. *)
Inductive BlockMode : Type :=
| cbcEncrypter (b : Block) (iv : bytes)
| cbcDecrypter (b : Block) (iv : bytes).

(** [NewCBCEncrypter(b, iv)] starts with [len(iv) != b.BlockSize()]:
    a nil [b] is a nil dereference, an IV of another length a panic. *)
Definition NewCBCEncrypter (b : option Block) (iv : bytes) : outcome BlockMode :=
  match b with
  | None => Panicked NilDereference
  | Some b =>
      if len iv =? BlockSize b then Returned (cbcEncrypter b iv)
      else Panicked (PanicMessage "cipher.NewCBCEncrypter: IV length must equal block size"%string)
  end.

Definition NewCBCDecrypter (b : option Block) (iv : bytes) : outcome BlockMode :=
  match b with
  | None => Panicked NilDereference
  | Some b =>
      if len iv =? BlockSize b then Returned (cbcDecrypter b iv)
      else Panicked (PanicMessage "cipher.NewCBCDecrypter: IV length must equal block size"%string)
  end.

(** The GCM object over a block cipher. *)
Record gcm : Type := { gcmBlock : Block }.

Definition gcmBlockSize : Z := 16.
Definition gcmNonceSize : Z := 12.
Definition gcmTagSize : Z := 16.

(** [NewGCM] refuses block ciphers whose block is not 16 bytes. *)
Definition NewGCM (b : Block) : result gcm :=
  if BlockSize b =? gcmBlockSize then Ok {| gcmBlock := b |}
  else Err errGCMBlockSize.

End cipher.

Module rc4.

Record Cipher : Type := { key : bytes }.

(** [rc4.NewCipher]: keys of 1 to 256 bytes, a [KeySizeError] otherwise. *)
Definition NewCipher (k : bytes) : result Cipher :=
  if (len k <? 1) || (256 <? len k) then Err (KeySizeError (len k))
  else Ok {| key := k |}.

End rc4.

Module aes.

(** [aes.NewCipher]: keys of 16, 24 or 32 bytes. *)
Definition NewCipher (k : bytes) : result cipher.Block :=
  if (len k =? 16) || (len k =? 24) || (len k =? 32)
  then Ok (cipher.aesCipher k)
  else Err (KeySizeError (len k)).

End aes.

Module des.

(** [des.NewTripleDESCipher]: keys of 24 bytes. *)
Definition NewTripleDESCipher (k : bytes) : result cipher.Block :=
  if len k =? 24 then Ok (cipher.tripleDESCipher k)
  else Err (KeySizeError (len k)).

End des.

Module hash.

(** The algorithm behind a [hash.Hash] value: SHA-1, an HMAC over
    another algorithm, or any further implementation of the interface,
    known by a tag and its output size. *)
Inductive Alg : Type :=
| SHA1
| HMAC (inner : Alg) (key : bytes)
| Other (tag : N) (size : Z).

Fixpoint algSize (a : Alg) : Z :=
  match a with
  | SHA1 => 20
  | HMAC inner _ => algSize inner
  | Other _ size => size
  end.

(** A [hash.Hash]: its algorithm and the bytes written since the last
    [Reset]. *)
Record Hash : Type := { alg : Alg; written : bytes }.

Definition Size (h : Hash) : Z := algSize (alg h).

Definition Reset (h : Hash) : Hash := {| alg := alg h; written := [] |}.

Definition Write (h : Hash) (p : bytes) : Hash :=
  {| alg := alg h; written := written h ++ p |}.

End hash.

Module sha1.
Definition Size : Z := 20.
Definition New : hash.Hash := {| hash.alg := hash.SHA1; hash.written := [] |}.
End sha1.

Module hmac.
(** [hmac.New(h, key)] for a constructor [h] of the inner hash. *)
Definition New (h : hash.Hash) (key : bytes) : hash.Hash :=
  {| hash.alg := hash.HMAC (hash.alg h) key; hash.written := [] |}.
End hmac.

(** What the primitives compute.  [digest a m] is the digest algorithm
    [a] gives for message [m]; [gcmEncrypt b nonce plaintext data] is the
    GCM ciphertext followed by its tag; [gcmDecrypt b nonce ciphertext
    data] is the plaintext when the tag verifies. *)
Class Primitives : Type := {
  digest : hash.Alg -> bytes -> bytes;
  gcmEncrypt : cipher.Block -> bytes -> bytes -> bytes -> bytes;
  gcmDecrypt : cipher.Block -> bytes -> bytes -> bytes -> option bytes
}.

Section PrimitiveOperations.
Context {P : Primitives}.

(** [h.Sum(b)] appends the digest of what was written to [b]; the
    state of [h] is left as it was. *)
Definition hash_Sum (h : hash.Hash) (b : bytes) : bytes :=
  b ++ digest (hash.alg h) (hash.written h).

(** The largest plaintext GCM accepts: [((1<<32)-2) * BlockSize]. *)
Definition gcmMaxPlaintext : Z := (Z.shiftl 1 32 - 2) * cipher.gcmBlockSize.

(** [gcm.Seal(dst, nonce, plaintext, data)]. *)
Definition gcm_Seal (g : cipher.gcm) (dst nonce plaintext data : bytes)
  : outcome bytes :=
  if negb (len nonce =? cipher.gcmNonceSize)
  then Panicked (PanicMessage "cipher: incorrect nonce length given to GCM"%string)
  else if gcmMaxPlaintext <? len plaintext
  then Panicked (PanicMessage "cipher: message too large for GCM"%string)
  else Returned (dst ++ gcmEncrypt (cipher.gcmBlock g) nonce plaintext data).

(** [gcm.Open(dst, nonce, ciphertext, data)]: the plaintext appended
    to [dst], or [nil] and [errOpen]. *)
Definition gcm_Open (g : cipher.gcm) (dst nonce ciphertext data : bytes)
  : outcome (bytes * option error) :=
  if negb (len nonce =? cipher.gcmNonceSize)
  then Panicked (PanicMessage "cipher: incorrect nonce length given to GCM"%string)
  else match gcmDecrypt (cipher.gcmBlock g) nonce ciphertext data with
       | Some plaintext => Returned (dst ++ plaintext, None)
       | None => Returned ([], Some errOpen)
       end.

End PrimitiveOperations.

(** ** Declarations of the package that live in other files *)

(** Modelled from the spec: [VersionSSL30] is declared in another file
    of the package.  It is the version number of the oldest supported
    protocol revision, the one that gets the legacy MAC; nothing proved
    below depends on the number chosen. *)
Definition VersionSSL30 : Z := 0x0300.

(** Modelled from the spec: the signature types and the key agreement
    objects are declared in other files of the package; only the
    selector the table stores is kept (RSA, RSA-export, ECDHE-RSA,
    ECDHE-ECDSA). *)
Inductive signatureType : Type := signatureRSA | signatureECDSA.

Inductive keyAgreement : Type :=
| rsaKeyAgreement
| rsaExportKeyAgreement (sigType : signatureType) (version : Z)
| ecdheKeyAgreement (sigType : signatureType) (version : Z).

(** ** Suite flags: [1 << iota] *)

Definition suiteECDHE : Z := Z.shiftl 1 0.
Definition suiteECDSA : Z := Z.shiftl 1 1.
Definition suiteTLS12 : Z := Z.shiftl 1 2.

(** ** The MAC objects *)

Definition ssl30Pad1 : bytes :=
  [x36; x36; x36; x36; x36; x36; x36; x36; x36; x36; x36; x36;
   x36; x36; x36; x36; x36; x36; x36; x36; x36; x36; x36; x36;
   x36; x36; x36; x36; x36; x36; x36; x36; x36; x36; x36; x36;
   x36; x36; x36; x36; x36; x36; x36; x36; x36; x36; x36; x36].

Definition ssl30Pad2 : bytes :=
  [x5c; x5c; x5c; x5c; x5c; x5c; x5c; x5c; x5c; x5c; x5c; x5c;
   x5c; x5c; x5c; x5c; x5c; x5c; x5c; x5c; x5c; x5c; x5c; x5c;
   x5c; x5c; x5c; x5c; x5c; x5c; x5c; x5c; x5c; x5c; x5c; x5c;
   x5c; x5c; x5c; x5c; x5c; x5c; x5c; x5c; x5c; x5c; x5c; x5c].

(** [ssl30MAC]: the SSLv3 MAC.  The hash is held by reference, so a call
    of [MAC] leaves it changed: [MAC] returns the object as it is after
    the call together with the digest. *)
Module ssl30MAC.

Record t : Type := { h : hash.Hash; key : bytes }.

Definition Size (s : t) : Z := hash.Size (h s).

Definition padLength (s : t) : Z :=
  if hash.Size (h s) =? 20 then 40 else 48.

Section WithPrimitives.
Context {P : Primitives}.

Definition MAC (s : t) (digestBuf seq header data : bytes)
  : outcome (t * bytes) :=
  let padLength := padLength s in
  let h := hash.Reset (h s) in
  let h := hash.Write h (key s) in
  pad1 <- slice_to ssl30Pad1 padLength ;;
  let h := hash.Write h pad1 in
  let h := hash.Write h seq in
  header0 <- slice_to header 1 ;;
  let h := hash.Write h header0 in
  header3 <- slice header 3 5 ;;
  let h := hash.Write h header3 in
  let h := hash.Write h data in
  buf <- slice_to digestBuf 0 ;;
  let digestBuf := hash_Sum h buf in
  let h := hash.Reset h in
  let h := hash.Write h (key s) in
  pad2 <- slice_to ssl30Pad2 padLength ;;
  let h := hash.Write h pad2 in
  let h := hash.Write h digestBuf in
  buf <- slice_to digestBuf 0 ;;
  Returned ({| h := h; key := key s |}, hash_Sum h buf).

End WithPrimitives.

End ssl30MAC.

(** [tls10MAC]: the TLS 1.0 MAC, an HMAC over sequence number, header
    and payload. *)
Module tls10MAC.

Record t : Type := { h : hash.Hash }.

Definition Size (s : t) : Z := hash.Size (h s).

Section WithPrimitives.
Context {P : Primitives}.

Definition MAC (s : t) (digestBuf seq header data : bytes)
  : outcome (t * bytes) :=
  let h := hash.Reset (h s) in
  let h := hash.Write h seq in
  let h := hash.Write h header in
  let h := hash.Write h data in
  buf <- slice_to digestBuf 0 ;;
  Returned ({| h := h |}, hash_Sum h buf).

End WithPrimitives.

End tls10MAC.

(** The [macFunction] interface and its two implementations. *)
Inductive macFunction : Type :=
| macSSL30 (s : ssl30MAC.t)
| macTLS10 (s : tls10MAC.t).

Definition macFunction_Size (m : macFunction) : Z :=
  match m with
  | macSSL30 s => ssl30MAC.Size s
  | macTLS10 s => tls10MAC.Size s
  end.

Definition macFunction_MAC {P : Primitives} (m : macFunction)
    (digestBuf seq header data : bytes) : outcome (macFunction * bytes) :=
  match m with
  | macSSL30 s =>
      r <- ssl30MAC.MAC s digestBuf seq header data ;;
      Returned (macSSL30 (fst r), snd r)
  | macTLS10 s =>
      r <- tls10MAC.MAC s digestBuf seq header data ;;
      Returned (macTLS10 (fst r), snd r)
  end.

(** [macSHA1] returns a [macFunction] for the given protocol version. *)
Definition macSHA1 (version : Z) (key : bytes) : macFunction :=
  if version =? VersionSSL30
  then
    let mac := {| ssl30MAC.h := sha1.New;
                  ssl30MAC.key := make (length key) |} in
    let mac := {| ssl30MAC.h := ssl30MAC.h mac;
                  ssl30MAC.key := copy (ssl30MAC.key mac) key |} in
    macSSL30 mac
  else macTLS10 {| tls10MAC.h := hmac.New sha1.New key |}.

(** ** The fixed-nonce AEAD wrapper

    The object is held by pointer and its two nonce buffers are written
    on every call, so [Seal] and [Open] return the object as it is after
    the call next to what the call produced.  When the slice expression
    panics nothing has been written yet. *)
Module fixedNonceAEAD.

Record t : Type := {
  sealNonce : bytes;
  openNonce : bytes;
  aead : cipher.gcm
}.

Definition NonceSize (f : t) : Z := 8.
Definition Overhead (f : t) : Z := cipher.gcmTagSize.

Section WithPrimitives.
Context {P : Primitives}.

Definition Seal (f : t) (out nonce plaintext additionalData : bytes)
  : t * outcome bytes :=
  match copy_from (sealNonce f) (len (sealNonce f) - 8) nonce with
  | Panicked v => (f, Panicked v)
  | Returned buf =>
      let f := {| sealNonce := buf; openNonce := openNonce f;
                  aead := aead f |} in
      (f, gcm_Seal (aead f) out (sealNonce f) plaintext additionalData)
  end.

Definition Open (f : t) (out nonce plaintext additionalData : bytes)
  : t * outcome (bytes * option error) :=
  match copy_from (openNonce f) (len (openNonce f) - 8) nonce with
  | Panicked v => (f, Panicked v)
  | Returned buf =>
      let f := {| sealNonce := sealNonce f; openNonce := buf;
                  aead := aead f |} in
      (f, gcm_Open (aead f) out (openNonce f) plaintext additionalData)
  end.

End WithPrimitives.

End fixedNonceAEAD.

(** ** The factories stored in the table *)

(** What a [cipher] factory returns as [interface{}]: a [*rc4.Cipher],
    possibly nil, or a CBC block mode. *)
Inductive cipherObject : Type :=
| streamCipher (c : option rc4.Cipher)
| blockMode (m : cipher.BlockMode).

Definition cipherRC4 (key iv : bytes) (isRead : bool) : outcome cipherObject :=
  let cipher := valueOrNil (rc4.NewCipher key) in
  Returned (streamCipher cipher).

Definition cipher3DES (key iv : bytes) (isRead : bool) : outcome cipherObject :=
  let block := valueOrNil (des.NewTripleDESCipher key) in
  if isRead
  then m <- cipher.NewCBCDecrypter block iv ;; Returned (blockMode m)
  else m <- cipher.NewCBCEncrypter block iv ;; Returned (blockMode m).

Definition cipherAES (key iv : bytes) (isRead : bool) : outcome cipherObject :=
  let block := valueOrNil (aes.NewCipher key) in
  if isRead
  then m <- cipher.NewCBCDecrypter block iv ;; Returned (blockMode m)
  else m <- cipher.NewCBCEncrypter block iv ;; Returned (blockMode m).

Definition aeadAESGCM (key fixedNonce : bytes) : outcome fixedNonceAEAD.t :=
  match aes.NewCipher key with
  | Err err => Panicked (PanicError err)
  | Ok aes =>
      match cipher.NewGCM aes with
      | Err err => Panicked (PanicError err)
      | Ok aead =>
          let nonce1 := make 12 in
          let nonce2 := make 12 in
          let nonce1 := copy nonce1 fixedNonce in
          let nonce2 := copy nonce2 fixedNonce in
          Returned {| fixedNonceAEAD.sealNonce := nonce1;
                      fixedNonceAEAD.openNonce := nonce2;
                      fixedNonceAEAD.aead := aead |}
      end
  end.

Definition rsaExportKA (version : Z) : keyAgreement :=
  rsaExportKeyAgreement signatureRSA version.

Definition rsaKA (version : Z) : keyAgreement := rsaKeyAgreement.

Definition ecdheECDSAKA (version : Z) : keyAgreement :=
  ecdheKeyAgreement signatureECDSA version.

Definition ecdheRSAKA (version : Z) : keyAgreement :=
  ecdheKeyAgreement signatureRSA version.

(** ** Suite identifiers *)

Definition TLS_RSA_WITH_RC4_128_SHA : Z := 0x0005.
Definition TLS_RSA_WITH_3DES_EDE_CBC_SHA : Z := 0x000a.
Definition TLS_RSA_WITH_AES_128_CBC_SHA : Z := 0x002f.
Definition TLS_RSA_WITH_AES_256_CBC_SHA : Z := 0x0035.
Definition TLS_RSA_WITH_AES_128_GCM_SHA256 : Z := 0x009C.
Definition TLS_ECDHE_ECDSA_WITH_RC4_128_SHA : Z := 0xc007.
Definition TLS_ECDHE_ECDSA_WITH_AES_128_CBC_SHA : Z := 0xc009.
Definition TLS_ECDHE_ECDSA_WITH_AES_256_CBC_SHA : Z := 0xc00a.
Definition TLS_ECDHE_RSA_WITH_RC4_128_SHA : Z := 0xc011.
Definition TLS_ECDHE_RSA_WITH_3DES_EDE_CBC_SHA : Z := 0xc012.
Definition TLS_ECDHE_RSA_WITH_AES_128_CBC_SHA : Z := 0xc013.
Definition TLS_ECDHE_RSA_WITH_AES_256_CBC_SHA : Z := 0xc014.
Definition TLS_ECDHE_RSA_WITH_AES_128_GCM_SHA256 : Z := 0xc02f.
Definition TLS_ECDHE_ECDSA_WITH_AES_128_GCM_SHA256 : Z := 0xc02b.
Definition TLS_RSA_WITH_RC4_128_MD5 : Z := 0x0004.

(** ** The suite table *)

(** A [cipherSuite]; a nil function field is [None]. *)
Record cipherSuite : Type := {
  id : Z;
  keyLen : Z;
  macLen : Z;
  ivLen : Z;
  ka : Z -> keyAgreement;
  flags : Z;
  cipher : option (bytes -> bytes -> bool -> outcome cipherObject);
  mac : option (Z -> bytes -> macFunction);
  aead : option (bytes -> bytes -> outcome fixedNonceAEAD.t)
}.

Definition suite id keyLen macLen ivLen ka flags cipher mac aead : cipherSuite :=
  {| id := id; keyLen := keyLen; macLen := macLen; ivLen := ivLen; ka := ka;
     flags := flags; cipher := cipher; mac := mac; aead := aead |}.

Definition cipherSuites : list cipherSuite := [
  suite TLS_ECDHE_RSA_WITH_AES_128_GCM_SHA256 16 0 4 ecdheRSAKA (Z.lor suiteECDHE suiteTLS12) None None (Some aeadAESGCM);
  suite TLS_ECDHE_ECDSA_WITH_AES_128_GCM_SHA256 16 0 4 ecdheECDSAKA (Z.lor (Z.lor suiteECDHE suiteECDSA) suiteTLS12) None None (Some aeadAESGCM);
  suite TLS_ECDHE_RSA_WITH_RC4_128_SHA 16 20 0 ecdheRSAKA suiteECDHE (Some cipherRC4) (Some macSHA1) None;
  suite TLS_ECDHE_ECDSA_WITH_RC4_128_SHA 16 20 0 ecdheECDSAKA (Z.lor suiteECDHE suiteECDSA) (Some cipherRC4) (Some macSHA1) None;
  suite TLS_ECDHE_RSA_WITH_AES_128_CBC_SHA 16 20 16 ecdheRSAKA suiteECDHE (Some cipherAES) (Some macSHA1) None;
  suite TLS_ECDHE_ECDSA_WITH_AES_128_CBC_SHA 16 20 16 ecdheECDSAKA (Z.lor suiteECDHE suiteECDSA) (Some cipherAES) (Some macSHA1) None;
  suite TLS_ECDHE_RSA_WITH_AES_256_CBC_SHA 32 20 16 ecdheRSAKA suiteECDHE (Some cipherAES) (Some macSHA1) None;
  suite TLS_ECDHE_ECDSA_WITH_AES_256_CBC_SHA 32 20 16 ecdheECDSAKA (Z.lor suiteECDHE suiteECDSA) (Some cipherAES) (Some macSHA1) None;
  suite TLS_RSA_WITH_RC4_128_SHA 16 20 0 rsaKA 0 (Some cipherRC4) (Some macSHA1) None;
  suite TLS_RSA_WITH_AES_128_GCM_SHA256 16 0 4 rsaKA 0 None None (Some aeadAESGCM);
  suite TLS_RSA_WITH_AES_128_CBC_SHA 16 20 16 rsaKA 0 (Some cipherAES) (Some macSHA1) None;
  suite TLS_RSA_WITH_AES_256_CBC_SHA 32 20 16 rsaKA 0 (Some cipherAES) (Some macSHA1) None;
  suite TLS_ECDHE_RSA_WITH_3DES_EDE_CBC_SHA 24 20 8 ecdheRSAKA suiteECDHE (Some cipher3DES) (Some macSHA1) None;
  suite TLS_RSA_WITH_3DES_EDE_CBC_SHA 24 20 8 rsaKA 0 (Some cipher3DES) (Some macSHA1) None
].

(** ** Negotiation *)

(** The inner loop of [mutualCipherSuite]: the first entry of the table
    whose id is [want], or nil. *)
Fixpoint suiteById (suites : list cipherSuite) (want : Z) : option cipherSuite :=
  match suites with
  | [] => None
  | suite :: rest => if id suite =? want then Some suite else suiteById rest want
  end.

(** [mutualCipherSuite] returns a [cipherSuite] given a list of
    supported ciphersuites and the id requested by the peer. *)
Fixpoint mutualCipherSuite (have : list Z) (want : Z) : option cipherSuite :=
  match have with
  | [] => None
  | id :: rest =>
      if id =? want then suiteById cipherSuites want
      else mutualCipherSuite rest want
  end.

(** ** Identifier lists *)

(** RSA ciphers *)
Definition RSACiphers : list Z := [
  TLS_RSA_WITH_RC4_128_SHA;
  TLS_RSA_WITH_3DES_EDE_CBC_SHA;
  TLS_RSA_WITH_AES_128_CBC_SHA;
  TLS_RSA_WITH_AES_256_CBC_SHA;
  TLS_RSA_WITH_AES_128_GCM_SHA256
].


(** Export ciphers *)
Definition TLS_RSA_EXPORT_WITH_RC4_40_MD5 : Z := 0x0003.
Definition TLS_RSA_EXPORT_WITH_RC2_CBC_40_MD5 : Z := 0x0006.
Definition TLS_RSA_EXPORT_WITH_DES40_CBC_SHA : Z := 0x0008.
Definition TLS_DH_DSS_EXPORT_WITH_DES40_CBC_SHA : Z := 0x000B.
Definition TLS_DH_RSA_EXPORT_WITH_DES40_CBC_SHA : Z := 0x000E.
Definition TLS_DHE_DSS_EXPORT_WITH_DES40_CBC_SHA : Z := 0x0011.
Definition TLS_DHE_RSA_EXPORT_WITH_DES40_CBC_SHA : Z := 0x0014.
Definition TLS_DH_anon_EXPORT_WITH_RC4_40_MD5 : Z := 0x0017.
Definition TLS_DH_anon_EXPORT_WITH_DES40_CBC_SHA : Z := 0x0019.
Definition TLS_KRB5_EXPORT_WITH_DES_CBC_40_SHA : Z := 0x0026.
Definition TLS_KRB5_EXPORT_WITH_RC2_CBC_40_SHA : Z := 0x0027.
Definition TLS_KRB5_EXPORT_WITH_RC4_40_SHA : Z := 0x0028.
Definition TLS_KRB5_EXPORT_WITH_DES_CBC_40_MD5 : Z := 0x0029.
Definition TLS_KRB5_EXPORT_WITH_RC2_CBC_40_MD5 : Z := 0x002A.
Definition TLS_KRB5_EXPORT_WITH_RC4_40_MD5 : Z := 0x002B.
Definition TLS_RSA_EXPORT1024_WITH_RC4_56_MD5 : Z := 0x0060.
Definition TLS_RSA_EXPORT1024_WITH_RC2_CBC_56_MD5 : Z := 0x0061.
Definition TLS_RSA_EXPORT1024_WITH_DES_CBC_SHA : Z := 0x0062.
Definition TLS_DHE_DSS_EXPORT1024_WITH_DES_CBC_SHA : Z := 0x0063.
Definition TLS_RSA_EXPORT1024_WITH_RC4_56_SHA : Z := 0x0064.
Definition TLS_DHE_DSS_EXPORT1024_WITH_RC4_56_SHA : Z := 0x0065.

(** DHE ciphers *)
Definition TLS_DHE_DSS_WITH_DES_CBC_SHA : Z := 0x0012.
Definition TLS_DHE_DSS_WITH_3DES_EDE_CBC_SHA : Z := 0x0013.
Definition TLS_DHE_RSA_WITH_DES_CBC_SHA : Z := 0x0015.
Definition TLS_DHE_RSA_WITH_3DES_EDE_CBC_SHA : Z := 0x0016.
Definition TLS_DHE_DSS_WITH_AES_128_CBC_SHA : Z := 0x0032.
Definition TLS_DHE_RSA_WITH_AES_128_CBC_SHA : Z := 0x0033.
Definition TLS_DHE_DSS_WITH_AES_256_CBC_SHA : Z := 0x0038.
Definition TLS_DHE_RSA_WITH_AES_256_CBC_SHA : Z := 0x0039.
Definition TLS_DHE_DSS_WITH_AES_128_CBC_SHA256 : Z := 0x0040.
Definition TLS_DHE_DSS_WITH_CAMELLIA_128_CBC_SHA : Z := 0x0044.
Definition TLS_DHE_RSA_WITH_CAMELLIA_128_CBC_SHA : Z := 0x0045.
Definition TLS_DHE_DSS_WITH_RC4_128_SHA : Z := 0x0066.
Definition TLS_DHE_RSA_WITH_AES_128_CBC_SHA256 : Z := 0x0067.
Definition TLS_DHE_DSS_WITH_AES_256_CBC_SHA256 : Z := 0x006A.
Definition TLS_DHE_RSA_WITH_AES_256_CBC_SHA256 : Z := 0x006B.
Definition TLS_DHE_DSS_WITH_CAMELLIA_256_CBC_SHA : Z := 0x0087.
Definition TLS_DHE_RSA_WITH_CAMELLIA_256_CBC_SHA : Z := 0x0088.
Definition TLS_DHE_DSS_WITH_SEED_CBC_SHA : Z := 0x0099.
Definition TLS_DHE_RSA_WITH_SEED_CBC_SHA : Z := 0x009A.
Definition TLS_DHE_RSA_WITH_AES_128_GCM_SHA256 : Z := 0x009E.
Definition TLS_DHE_RSA_WITH_AES_256_GCM_SHA384 : Z := 0x009F.
Definition TLS_DHE_DSS_WITH_AES_128_GCM_SHA256 : Z := 0x00A2.
Definition TLS_DHE_DSS_WITH_AES_256_GCM_SHA384 : Z := 0x00A3.
Definition TLS_DHE_DSS_WITH_CAMELLIA_128_CBC_SHA256 : Z := 0x00BD.
Definition TLS_DHE_RSA_WITH_CAMELLIA_128_CBC_SHA256 : Z := 0x00BE.
Definition TLS_DHE_DSS_WITH_CAMELLIA_256_CBC_SHA256 : Z := 0x00C3.
Definition TLS_DHE_RSA_WITH_CAMELLIA_256_CBC_SHA256 : Z := 0x00C4.
Definition TLS_DHE_DSS_WITH_ARIA_128_CBC_SHA256 : Z := 0xC042.
Definition TLS_DHE_DSS_WITH_ARIA_256_CBC_SHA384 : Z := 0xC043.
Definition TLS_DHE_RSA_WITH_ARIA_128_CBC_SHA256 : Z := 0xC044.
Definition TLS_DHE_RSA_WITH_ARIA_256_CBC_SHA384 : Z := 0xC045.
Definition TLS_DHE_RSA_WITH_ARIA_128_GCM_SHA256 : Z := 0xC052.
Definition TLS_DHE_RSA_WITH_ARIA_256_GCM_SHA384 : Z := 0xC053.
Definition TLS_DHE_DSS_WITH_ARIA_128_GCM_SHA256 : Z := 0xC056.
Definition TLS_DHE_DSS_WITH_ARIA_256_GCM_SHA384 : Z := 0xC057.
Definition TLS_DHE_RSA_WITH_CAMELLIA_128_GCM_SHA256 : Z := 0xC07C.
Definition TLS_DHE_RSA_WITH_CAMELLIA_256_GCM_SHA384 : Z := 0xC07D.
Definition TLS_DHE_DSS_WITH_CAMELLIA_128_GCM_SHA256 : Z := 0xC080.
Definition TLS_DHE_DSS_WITH_CAMELLIA_256_GCM_SHA384 : Z := 0xC081.
Definition TLS_DHE_RSA_WITH_AES_128_CCM : Z := 0xC09E.
Definition TLS_DHE_RSA_WITH_AES_256_CCM : Z := 0xC09F.
Definition TLS_DHE_RSA_WITH_AES_128_CCM_8 : Z := 0xC0A2.
Definition TLS_DHE_RSA_WITH_AES_256_CCM_8 : Z := 0xC0A3.
Definition TLS_DHE_RSA_WITH_CHACHA20_POLY1305_SHA256 : Z := 0xCC15.

(** CHACHA ciphers *)
Definition TLS_ECDHE_ECDSA_WITH_CHACHA20_POLY1305_SHA256 : Z := 0xCC14.
Definition TLS_ECDHE_RSA_WITH_CHACHA20_POLY1305_SHA256 : Z := 0xCC13.

Definition DHECiphers : list Z := [
  TLS_DHE_DSS_WITH_DES_CBC_SHA;
  TLS_DHE_DSS_WITH_3DES_EDE_CBC_SHA;
  TLS_DHE_RSA_WITH_DES_CBC_SHA;
  TLS_DHE_RSA_WITH_3DES_EDE_CBC_SHA;
  TLS_DHE_DSS_WITH_AES_128_CBC_SHA;
  TLS_DHE_RSA_WITH_AES_128_CBC_SHA;
  TLS_DHE_DSS_WITH_AES_256_CBC_SHA;
  TLS_DHE_RSA_WITH_AES_256_CBC_SHA;
  TLS_DHE_DSS_WITH_AES_128_CBC_SHA256;
  TLS_DHE_DSS_WITH_CAMELLIA_128_CBC_SHA;
  TLS_DHE_RSA_WITH_CAMELLIA_128_CBC_SHA;
  TLS_DHE_DSS_WITH_RC4_128_SHA;
  TLS_DHE_RSA_WITH_AES_128_CBC_SHA256;
  TLS_DHE_DSS_WITH_AES_256_CBC_SHA256;
  TLS_DHE_RSA_WITH_AES_256_CBC_SHA256;
  TLS_DHE_DSS_WITH_CAMELLIA_256_CBC_SHA;
  TLS_DHE_RSA_WITH_CAMELLIA_256_CBC_SHA;
  TLS_DHE_DSS_WITH_SEED_CBC_SHA;
  TLS_DHE_RSA_WITH_SEED_CBC_SHA;
  TLS_DHE_RSA_WITH_AES_128_GCM_SHA256;
  TLS_DHE_RSA_WITH_AES_256_GCM_SHA384;
  TLS_DHE_DSS_WITH_AES_128_GCM_SHA256;
  TLS_DHE_DSS_WITH_AES_256_GCM_SHA384;
  TLS_DHE_DSS_WITH_CAMELLIA_128_CBC_SHA256;
  TLS_DHE_RSA_WITH_CAMELLIA_128_CBC_SHA256;
  TLS_DHE_DSS_WITH_CAMELLIA_256_CBC_SHA256;
  TLS_DHE_RSA_WITH_CAMELLIA_256_CBC_SHA256;
  TLS_DHE_DSS_WITH_ARIA_128_CBC_SHA256;
  TLS_DHE_DSS_WITH_ARIA_256_CBC_SHA384;
  TLS_DHE_RSA_WITH_ARIA_128_CBC_SHA256;
  TLS_DHE_RSA_WITH_ARIA_256_CBC_SHA384;
  TLS_DHE_RSA_WITH_ARIA_128_GCM_SHA256;
  TLS_DHE_RSA_WITH_ARIA_256_GCM_SHA384;
  TLS_DHE_DSS_WITH_ARIA_128_GCM_SHA256;
  TLS_DHE_DSS_WITH_ARIA_256_GCM_SHA384;
  TLS_DHE_RSA_WITH_CAMELLIA_128_GCM_SHA256;
  TLS_DHE_RSA_WITH_CAMELLIA_256_GCM_SHA384;
  TLS_DHE_DSS_WITH_CAMELLIA_128_GCM_SHA256;
  TLS_DHE_DSS_WITH_CAMELLIA_256_GCM_SHA384;
  TLS_DHE_RSA_WITH_AES_128_CCM;
  TLS_DHE_RSA_WITH_AES_256_CCM;
  TLS_DHE_RSA_WITH_AES_128_CCM_8;
  TLS_DHE_RSA_WITH_AES_256_CCM_8;
  TLS_DHE_RSA_WITH_CHACHA20_POLY1305_SHA256
].

Definition ExportCiphers : list Z := [
  TLS_RSA_EXPORT_WITH_RC4_40_MD5;
  TLS_RSA_EXPORT_WITH_RC2_CBC_40_MD5;
  TLS_RSA_EXPORT_WITH_DES40_CBC_SHA;
  TLS_DH_DSS_EXPORT_WITH_DES40_CBC_SHA;
  TLS_DH_RSA_EXPORT_WITH_DES40_CBC_SHA;
  TLS_DHE_DSS_EXPORT_WITH_DES40_CBC_SHA;
  TLS_DHE_RSA_EXPORT_WITH_DES40_CBC_SHA;
  TLS_DH_anon_EXPORT_WITH_RC4_40_MD5;
  TLS_DH_anon_EXPORT_WITH_DES40_CBC_SHA;
  TLS_KRB5_EXPORT_WITH_DES_CBC_40_SHA;
  TLS_KRB5_EXPORT_WITH_RC2_CBC_40_SHA;
  TLS_KRB5_EXPORT_WITH_RC4_40_SHA;
  TLS_KRB5_EXPORT_WITH_DES_CBC_40_MD5;
  TLS_KRB5_EXPORT_WITH_RC2_CBC_40_MD5;
  TLS_KRB5_EXPORT_WITH_RC4_40_MD5;
  TLS_RSA_EXPORT1024_WITH_RC4_56_MD5;
  TLS_RSA_EXPORT1024_WITH_RC2_CBC_56_MD5;
  TLS_RSA_EXPORT1024_WITH_DES_CBC_SHA;
  TLS_DHE_DSS_EXPORT1024_WITH_DES_CBC_SHA;
  TLS_RSA_EXPORT1024_WITH_RC4_56_SHA;
  TLS_DHE_DSS_EXPORT1024_WITH_RC4_56_SHA
].

Definition RSAExportCiphers : list Z := [
  TLS_RSA_EXPORT_WITH_RC4_40_MD5;
  TLS_RSA_EXPORT_WITH_RC2_CBC_40_MD5;
  TLS_RSA_EXPORT_WITH_DES40_CBC_SHA;
  TLS_RSA_EXPORT1024_WITH_RC4_56_MD5;
  TLS_RSA_EXPORT1024_WITH_RC2_CBC_56_MD5;
  TLS_RSA_EXPORT1024_WITH_DES_CBC_SHA;
  TLS_RSA_EXPORT1024_WITH_RC4_56_SHA
].

Definition RSA512ExportCiphers : list Z := [
  TLS_RSA_EXPORT_WITH_RC4_40_MD5;
  TLS_RSA_EXPORT_WITH_RC2_CBC_40_MD5;
  TLS_RSA_EXPORT_WITH_DES40_CBC_SHA
].

Definition DHEExportCiphers : list Z := [
  TLS_DHE_RSA_EXPORT_WITH_DES40_CBC_SHA;
  TLS_DH_anon_EXPORT_WITH_RC4_40_MD5;
  TLS_DH_anon_EXPORT_WITH_DES40_CBC_SHA;
  TLS_DHE_DSS_EXPORT_WITH_DES40_CBC_SHA
].

Definition DHE512ExportCiphers : list Z := [].

Definition CBCSuiteIDList : list Z := [
  TLS_RSA_WITH_3DES_EDE_CBC_SHA;
  TLS_RSA_WITH_AES_128_CBC_SHA;
  TLS_RSA_WITH_AES_256_CBC_SHA;
  TLS_ECDHE_ECDSA_WITH_AES_128_CBC_SHA;
  TLS_ECDHE_ECDSA_WITH_AES_256_CBC_SHA;
  TLS_ECDHE_RSA_WITH_3DES_EDE_CBC_SHA;
  TLS_ECDHE_RSA_WITH_AES_128_CBC_SHA;
  TLS_ECDHE_RSA_WITH_AES_256_CBC_SHA
].

Definition ChromeCiphers : list Z := [
  TLS_ECDHE_ECDSA_WITH_AES_128_GCM_SHA256;
  TLS_ECDHE_RSA_WITH_AES_128_GCM_SHA256;
  TLS_DHE_RSA_WITH_AES_128_GCM_SHA256;
  TLS_ECDHE_ECDSA_WITH_CHACHA20_POLY1305_SHA256;
  TLS_ECDHE_RSA_WITH_CHACHA20_POLY1305_SHA256;
  TLS_DHE_RSA_WITH_CHACHA20_POLY1305_SHA256;
  TLS_ECDHE_ECDSA_WITH_AES_256_CBC_SHA;
  TLS_ECDHE_RSA_WITH_AES_256_CBC_SHA;
  TLS_DHE_RSA_WITH_AES_256_CBC_SHA;
  TLS_ECDHE_ECDSA_WITH_AES_128_CBC_SHA;
  TLS_ECDHE_RSA_WITH_AES_128_CBC_SHA;
  TLS_DHE_RSA_WITH_AES_128_CBC_SHA;
  TLS_ECDHE_ECDSA_WITH_RC4_128_SHA;
  TLS_ECDHE_RSA_WITH_RC4_128_SHA;
  TLS_RSA_WITH_AES_128_GCM_SHA256;
  TLS_RSA_WITH_AES_256_CBC_SHA;
  TLS_RSA_WITH_AES_128_CBC_SHA;
  TLS_RSA_WITH_RC4_128_SHA;
  TLS_RSA_WITH_RC4_128_MD5;
  TLS_RSA_WITH_3DES_EDE_CBC_SHA
].

Definition ChromeNoDHECiphers : list Z := [
  TLS_ECDHE_ECDSA_WITH_AES_128_GCM_SHA256;
  TLS_ECDHE_RSA_WITH_AES_128_GCM_SHA256;
  TLS_ECDHE_ECDSA_WITH_CHACHA20_POLY1305_SHA256;
  TLS_ECDHE_RSA_WITH_CHACHA20_POLY1305_SHA256;
  TLS_ECDHE_ECDSA_WITH_AES_256_CBC_SHA;
  TLS_ECDHE_RSA_WITH_AES_256_CBC_SHA;
  TLS_ECDHE_ECDSA_WITH_AES_128_CBC_SHA;
  TLS_ECDHE_RSA_WITH_AES_128_CBC_SHA;
  TLS_ECDHE_ECDSA_WITH_RC4_128_SHA;
  TLS_ECDHE_RSA_WITH_RC4_128_SHA;
  TLS_RSA_WITH_AES_128_GCM_SHA256;
  TLS_RSA_WITH_AES_256_CBC_SHA;
  TLS_RSA_WITH_AES_128_CBC_SHA;
  TLS_RSA_WITH_RC4_128_SHA;
  TLS_RSA_WITH_RC4_128_MD5;
  TLS_RSA_WITH_3DES_EDE_CBC_SHA
].

Definition FirefoxCiphers : list Z := [
  TLS_ECDHE_ECDSA_WITH_AES_128_GCM_SHA256;
  TLS_ECDHE_RSA_WITH_AES_128_GCM_SHA256;
  TLS_ECDHE_ECDSA_WITH_AES_256_CBC_SHA;
  TLS_ECDHE_ECDSA_WITH_AES_128_CBC_SHA;
  TLS_ECDHE_RSA_WITH_AES_128_CBC_SHA;
  TLS_ECDHE_RSA_WITH_AES_256_CBC_SHA;
  TLS_DHE_RSA_WITH_AES_128_CBC_SHA;
  TLS_DHE_DSS_WITH_AES_128_CBC_SHA;
  TLS_DHE_RSA_WITH_AES_256_CBC_SHA;
  TLS_RSA_WITH_AES_128_CBC_SHA;
  TLS_RSA_WITH_AES_256_CBC_SHA;
  TLS_RSA_WITH_3DES_EDE_CBC_SHA
].

Definition SChannelSuites : list Z := [
  TLS_RSA_WITH_AES_128_GCM_SHA256;
  TLS_RSA_WITH_RC4_128_SHA
].

Fixpoint cipherInList (cipher : Z) (cipherList : list Z) : bool :=
  match cipherList with
  | [] => false
  | val :: rest => if cipher =? val then true else cipherInList cipher rest
  end.

(** ** Histories of a wrapper: the calls made on one object *)

Inductive call : Type :=
| callSeal (out nonce plaintext additionalData : bytes)
| callOpen (out nonce ciphertext additionalData : bytes).

Section Histories.
Context {P : Primitives}.

(** The object after one call, whatever the call produced. *)
Definition afterCall (f : fixedNonceAEAD.t) (c : call) : fixedNonceAEAD.t :=
  match c with
  | callSeal out nonce plaintext additionalData =>
      fst (fixedNonceAEAD.Seal f out nonce plaintext additionalData)
  | callOpen out nonce ciphertext additionalData =>
      fst (fixedNonceAEAD.Open f out nonce ciphertext additionalData)
  end.

Definition afterCalls (f : fixedNonceAEAD.t) (cs : list call) : fixedNonceAEAD.t :=
  fold_left afterCall cs f.

End Histories.

(** ** A small instance of [Primitives]

    Used to run the definitions on concrete inputs: the digest is the
    reversed message cut or zero-filled to the output size, the AEAD
    reverses the plaintext and appends a 16-byte tag read off nonce and
    data. *)

Fixpoint bytes_eqb (a b : bytes) : bool :=
  match a, b with
  | [], [] => true
  | x :: a', y :: b' => Byte.eqb x y && bytes_eqb a' b'
  | _, _ => false
  end.

Definition sampleDigest (a : hash.Alg) (m : bytes) : bytes :=
  let n := Z.to_nat (hash.algSize a) in
  firstn n (rev m ++ repeat x00 n).

Definition sampleTag (nonce data : bytes) : bytes :=
  firstn 16 (nonce ++ data ++ repeat x00 16).

Definition sampleEncrypt (b : cipher.Block) (nonce plaintext data : bytes) : bytes :=
  rev plaintext ++ sampleTag nonce data.

Definition sampleDecrypt (b : cipher.Block) (nonce ciphertext data : bytes)
  : option bytes :=
  let n := (length ciphertext - 16)%nat in
  if (length ciphertext <? 16)%nat then None
  else if bytes_eqb (skipn n ciphertext) (sampleTag nonce data)
       then Some (rev (firstn n ciphertext))
       else None.

Definition samplePrimitives : Primitives :=
  {| digest := sampleDigest;
     gcmEncrypt := sampleEncrypt;
     gcmDecrypt := sampleDecrypt |}.

(** ** Vocabulary of the statements *)

(** The two shapes of a descriptor. *)
Definition cipherAndMacShape (s : cipherSuite) : Prop :=
  cipher s <> None /\ mac s <> None /\ aead s = None.

Definition aeadShape (s : cipherSuite) : Prop :=
  aead s <> None /\ cipher s = None /\ mac s = None.

(** The pad length of an [ssl30MAC] as a number of list elements. *)
Definition padBytes (s : ssl30MAC.t) : nat :=
  if ssl30MAC.Size s =? 20 then 40%nat else 48%nat.

(** The digest function of the hash an [ssl30MAC] holds. *)
Definition digestOf {P : Primitives} (s : ssl30MAC.t) : bytes -> bytes :=
  digest (hash.alg (ssl30MAC.h s)).

(** The first pass and the second pass of the SSLv3 MAC. *)
Definition firstPass {P : Primitives} (s : ssl30MAC.t)
    (pad1 seq header0 header3 data : bytes) : bytes :=
  digestOf s (ssl30MAC.key s ++ pad1 ++ seq ++ header0 ++ header3 ++ data).

Definition secondPass {P : Primitives} (s : ssl30MAC.t)
    (pad2 firstDigest : bytes) : bytes :=
  digestOf s (ssl30MAC.key s ++ pad2 ++ firstDigest).

(** What the calls on a wrapper keep: two 12-byte buffers that start
    with the same four bytes, around the same AEAD. *)
Definition wrapperInv (prefix : bytes) (g : cipher.gcm) (f : fixedNonceAEAD.t) : Prop :=
  length (fixedNonceAEAD.sealNonce f) = 12%nat /\
  length (fixedNonceAEAD.openNonce f) = 12%nat /\
  firstn 4 (fixedNonceAEAD.sealNonce f) = prefix /\
  firstn 4 (fixedNonceAEAD.openNonce f) = prefix /\
  fixedNonceAEAD.aead f = g.

(** The key sizes of AES. *)
Definition aesKeyLength (key : bytes) : Prop :=
  len key = 16 \/ len key = 24 \/ len key = 32.

(** Decryption undoes encryption: what is asked of the GCM primitive
    over AES, on 12-byte nonces and plaintexts within the size limit. *)
Definition gcmRoundTrip {P : Primitives} : Prop :=
  forall key nonce plaintext data,
    aesKeyLength key ->
    length nonce = 12%nat ->
    len plaintext <= gcmMaxPlaintext ->
    gcmDecrypt (cipher.aesCipher key) nonce
               (gcmEncrypt (cipher.aesCipher key) nonce plaintext data) data
    = Some plaintext.

(** The aim of the primitive factories as the specification words it:
    key material whose length differs from the descriptor's [keyLen] or
    [ivLen] makes construction panic. *)
Definition wrongLengthsAbort : Prop :=
  forall s key iv,
    In s cipherSuites ->
    len key <> keyLen s \/ len iv <> ivLen s ->
    (forall f isRead, cipher s = Some f -> panics (f key iv isRead) = true) /\
    (forall g, aead s = Some g -> panics (g key iv) = true).

(** The calls of one direction. *)
Definition isSealCall (c : call) : bool :=
  match c with
  | callSeal _ _ _ _ => true
  | callOpen _ _ _ _ => false
  end.

Definition isOpenCall (c : call) : bool := negb (isSealCall c).

(** The primitive adds its 16-byte tag and nothing else: what is asked
    of GCM encryption where lengths are counted. *)
Definition gcmTagAdded {P : Primitives} : Prop :=
  forall b nonce plaintext data,
    len (gcmEncrypt b nonce plaintext data) = len plaintext + cipher.gcmTagSize.

(** A descriptor whose cipher factory, given zero bytes of the
    descriptor's lengths, builds a CBC block mode. *)
Definition buildsCBC (s : cipherSuite) : bool :=
  match cipher s with
  | Some f =>
      match f (make (Z.to_nat (keyLen s))) (make (Z.to_nat (ivLen s))) false with
      | Returned (blockMode _) => true
      | _ => false
      end
  | None => false
  end.

(** Whether a bit of the flags is set. *)
Definition hasFlag (s : cipherSuite) (flag : Z) : bool :=
  negb (Z.land (flags s) flag =? 0).

(** What [Seal] reads of the object: the seal buffer and the AEAD. *)
Definition sameSealSide (f f' : fixedNonceAEAD.t) : Prop :=
  fixedNonceAEAD.sealNonce f = fixedNonceAEAD.sealNonce f' /\
  fixedNonceAEAD.aead f = fixedNonceAEAD.aead f'.

Definition sameOpenSide (f f' : fixedNonceAEAD.t) : Prop :=
  fixedNonceAEAD.openNonce f = fixedNonceAEAD.openNonce f' /\
  fixedNonceAEAD.aead f = fixedNonceAEAD.aead f'.

(** The identifier lists of the file, in its order. *)
Definition catalog : list (list Z) :=
  [RSACiphers; DHECiphers; ExportCiphers; RSAExportCiphers;
   RSA512ExportCiphers; DHEExportCiphers; DHE512ExportCiphers;
   CBCSuiteIDList; ChromeCiphers; ChromeNoDHECiphers; FirefoxCiphers;
   SChannelSuites].

(** A value of a [uint16]. *)
Definition isUint16 (c : Z) : bool := (0 <=? c) && (c <? 65536).

(** No element is found again in the rest of the list. *)
Fixpoint distinct (l : list Z) : bool :=
  match l with
  | [] => true
  | c :: rest => negb (cipherInList c rest) && distinct rest
  end.

(** * Properties *)

Unset Implicit Arguments.

(** ** Slices and [copy] *)

Lemma len_app {A} (a b : list A) : len (a ++ b) = len a + len b.
Proof. unfold len. rewrite length_app. lia. Qed.

Lemma length_copy {A} (dst src : list A) : length (copy dst src) = length dst.
Proof.
  unfold copy. rewrite length_app, length_firstn, length_skipn. lia.
Qed.

Lemma copy_same_length {A} (dst src : list A) :
  length src = length dst -> copy dst src = src.
Proof.
  intros E. unfold copy. rewrite <- E, firstn_all, E, skipn_all.
  apply app_nil_r.
Qed.

Lemma slice_to_0 {A} (s : list A) : slice_to s 0 = Returned [].
Proof.
  unfold slice_to, slice.
  replace (0 <=? len s) with true by (symmetry; apply Z.leb_le; unfold len; lia).
  reflexivity.
Qed.

Lemma firstn_repeat {A} (x : A) (n m : nat) :
  (n <= m)%nat -> firstn n (repeat x m) = repeat x n.
Proof.
  revert m. induction n as [|n IH]; intros [|m] Hle; simpl; try reflexivity; try lia.
  f_equal. apply IH. lia.
Qed.

Lemma ssl30Pad1_repeat : ssl30Pad1 = repeat x36 48.
Proof. reflexivity. Qed.

Lemma ssl30Pad2_repeat : ssl30Pad2 = repeat x5c 48.
Proof. reflexivity. Qed.

(** ** The suite table *)

Lemma suiteById_Some (suites : list cipherSuite) (want : Z) (s : cipherSuite) :
  suiteById suites want = Some s -> In s suites /\ id s = want.
Proof.
  induction suites as [|x rest IH]; simpl; [discriminate|].
  destruct (id x =? want) eqn:E.
  - intros [= <-]. split; [now left | now apply Z.eqb_eq].
  - intros H. destruct (IH H). auto.
Qed.

Lemma suiteById_None (suites : list cipherSuite) (want : Z) :
  suiteById suites want = None <-> forall s, In s suites -> id s <> want.
Proof.
  induction suites as [|x rest IH]; simpl.
  - split; [intros _ s [] | reflexivity].
  - destruct (id x =? want) eqn:E.
    + split; [discriminate|]. intros H. apply Z.eqb_eq in E.
      exfalso. apply (H x); auto.
    + apply Z.eqb_neq in E. rewrite IH. split.
      * intros H s [<- | Hin]; auto.
      * intros H s Hin. apply H. now right.
Qed.

(** With distinct ids, the scan finds every entry by its id. *)
Lemma suiteById_In (suites : list cipherSuite) (s : cipherSuite) :
  NoDup (map id suites) -> In s suites -> suiteById suites (id s) = Some s.
Proof.
  induction suites as [|x rest IH]; simpl; [intros _ []|].
  intros Hnd [-> | Hin].
  - now rewrite Z.eqb_refl.
  - inversion Hnd as [|? ? Hnotin Hnd']; subst.
    destruct (id x =? id s) eqn:E.
    + apply Z.eqb_eq in E. exfalso. apply Hnotin. rewrite E.
      now apply in_map.
    + now apply IH.
Qed.

Lemma cipherSuites_ids :
  map id cipherSuites =
  [0xc02f; 0xc02b; 0xc011; 0xc007; 0xc013; 0xc009; 0xc014; 0xc00a;
   0x0005; 0x009c; 0x002f; 0x0035; 0xc012; 0x000a].
Proof. reflexivity. Qed.

(** No two descriptors share an id. *)
Lemma cipherSuites_NoDup : NoDup (map id cipherSuites).
Proof.
  rewrite cipherSuites_ids.
  repeat (constructor; [simpl; intuition discriminate|]).
  constructor.
Qed.

Lemma mutualCipherSuite_In (have : list Z) (want : Z) :
  In want have -> mutualCipherSuite have want = suiteById cipherSuites want.
Proof.
  induction have as [|x rest IH]; simpl; [intros []|].
  destruct (x =? want) eqn:E; [reflexivity|].
  apply Z.eqb_neq in E. intros [-> | Hin]; [contradiction | auto].
Qed.

Lemma mutualCipherSuite_not_In (have : list Z) (want : Z) :
  ~ In want have -> mutualCipherSuite have want = None.
Proof.
  induction have as [|x rest IH]; simpl; [reflexivity|].
  intros Hn. destruct (x =? want) eqn:E.
  - apply Z.eqb_eq in E. exfalso. auto.
  - apply IH. auto.
Qed.

Lemma In_have_dec (have : list Z) (want : Z) : {In want have} + {~ In want have}.
Proof. apply in_dec, Z.eq_dec. Qed.

(** C1. [mutualCipherSuite have want] is the table's descriptor with id
    [want] exactly when [want] occurs in [have] and the table has such a
    descriptor; it is nil exactly when [want] is missing from [have] or
    from the table.  On [[0x002f; 0xc013]] and [0xc013] it is the
    descriptor with id [0xc013]; on [[0x002f]] and [0xc013] it is nil. *)
Theorem mutualCipherSuite_spec :
  (forall have want s,
      mutualCipherSuite have want = Some s <->
      In want have /\ In s cipherSuites /\ id s = want) /\
  (forall have want,
      mutualCipherSuite have want = None <->
      ~ In want have \/ (forall s, In s cipherSuites -> id s <> want)) /\
  (exists s, mutualCipherSuite [0x002f; 0xc013] 0xc013 = Some s /\
             In s cipherSuites /\ id s = 0xc013) /\
  mutualCipherSuite [0x002f] 0xc013 = None.
Proof.
  split; [|split; [|split]].
  - intros have want s. split.
    + intros H. destruct (In_have_dec have want) as [Hin | Hn].
      * rewrite (mutualCipherSuite_In _ _ Hin) in H.
        apply suiteById_Some in H. tauto.
      * rewrite (mutualCipherSuite_not_In _ _ Hn) in H. discriminate.
    + intros (Hin & Hs & <-). rewrite (mutualCipherSuite_In _ _ Hin).
      apply suiteById_In; [apply cipherSuites_NoDup | assumption].
  - intros have want. split.
    + intros H. destruct (In_have_dec have want) as [Hin | Hn]; [right | now left].
      rewrite (mutualCipherSuite_In _ _ Hin) in H.
      now apply suiteById_None.
    + intros [Hn | Hnone].
      * now apply mutualCipherSuite_not_In.
      * destruct (In_have_dec have want) as [Hin | Hn].
        -- rewrite (mutualCipherSuite_In _ _ Hin). now apply suiteById_None.
        -- now apply mutualCipherSuite_not_In.
  - eexists. split; [reflexivity|]. split; [|reflexivity].
    simpl. tauto.
  - reflexivity.
Qed.

Ltac each_suite H :=
  unfold cipherSuites in H; simpl in H;
  repeat (destruct H as [<- | H]); [.. | contradiction].

(** C7. Every entry of [cipherSuites] has exactly one of the two shapes:
    cipher and mac present and aead nil, or aead present and cipher and
    mac nil; never both, never neither. *)
Theorem cipherSuites_one_shape :
  Forall (fun s => (cipherAndMacShape s \/ aeadShape s) /\
                   ~ (cipherAndMacShape s /\ aeadShape s))
         cipherSuites.
Proof.
  apply Forall_forall. intros s H. unfold cipherAndMacShape, aeadShape.
  each_suite H; simpl;
    (split; [ first [ left; repeat split; congruence
                    | right; repeat split; congruence ]
            | intros [(_ & _ & E) (N & _)]; congruence ]).
Qed.

(** C8. Every entry of [cipherSuites] whose aead field is present has
    [macLen = 0] and [ivLen = 4]; the entry found for id [0xc02f] has
    [ivLen = 4], [macLen = 0] and its aead factory present. *)
Theorem aead_suites_lengths :
  Forall (fun s => aead s <> None -> macLen s = 0 /\ ivLen s = 4) cipherSuites /\
  (exists s, suiteById cipherSuites 0xc02f = Some s /\
             mutualCipherSuite [0xc02f] 0xc02f = Some s /\
             id s = TLS_ECDHE_RSA_WITH_AES_128_GCM_SHA256 /\
             ivLen s = 4 /\ macLen s = 0 /\ aead s <> None).
Proof.
  split.
  - apply Forall_forall. intros s H.
    each_suite H; simpl; intros Ha; solve [ split; reflexivity | congruence ].
  - eexists. split; [reflexivity|]. simpl.
    repeat split; congruence.
Qed.

(** ** The lists and [cipherInList] *)

Lemma cipherInList_In (c : Z) (l : list Z) : cipherInList c l = true <-> In c l.
Proof.
  induction l as [|v rest IH]; simpl.
  - split; [discriminate | intros []].
  - destruct (c =? v) eqn:E.
    + apply Z.eqb_eq in E. split; auto.
    + apply Z.eqb_neq in E. rewrite IH. split; [auto|].
      intros [-> | H]; [contradiction | assumption].
Qed.

(** C9. [cipherInList id l] is true if and only if [id] is one of the
    elements of [l], for every list; an id with a descriptor in
    [cipherSuites] that a list does not hold is still reported absent
    from that list (the RC4 suite [0x0005] and [FirefoxCiphers]). *)
Theorem cipherInList_spec :
  (forall c l, cipherInList c l = true <-> In c l) /\
  (forall c l, cipherInList c l = false <-> ~ In c l) /\
  (exists s, In s cipherSuites /\ id s = TLS_RSA_WITH_RC4_128_SHA) /\
  ~ In TLS_RSA_WITH_RC4_128_SHA FirefoxCiphers /\
  cipherInList TLS_RSA_WITH_RC4_128_SHA FirefoxCiphers = false.
Proof.
  split; [exact cipherInList_In|]. split; [|split; [|split]].
  - intros c l. rewrite <- cipherInList_In.
    destruct (cipherInList c l); split; congruence.
  - eexists. split; [unfold cipherSuites; do 8 right; left; reflexivity|].
    reflexivity.
  - rewrite <- cipherInList_In. discriminate.
  - reflexivity.
Qed.

(** ** The MAC objects *)

Lemma macSHA1_Size (version : Z) (key : bytes) :
  macFunction_Size (macSHA1 version key) = 20.
Proof. unfold macSHA1. destruct (version =? VersionSSL30); reflexivity. Qed.

(** C10. For every entry of [cipherSuites] whose mac factory is present,
    every protocol version and every MAC key, the [macFunction] the
    factory returns has [Size()] equal to the entry's [macLen], which
    is 20. *)
Theorem mac_Size_is_macLen
    (s : cipherSuite) (f : Z -> bytes -> macFunction) (version : Z) (key : bytes) :
  In s cipherSuites ->
  mac s = Some f ->
  macFunction_Size (f version key) = macLen s /\ macLen s = 20.
Proof.
  intros H.
  each_suite H; simpl; intros E; try discriminate E;
    injection E as <-; rewrite macSHA1_Size; split; reflexivity.
Qed.

Lemma mac_Size_is_macLen_run :
  let s := suite TLS_RSA_WITH_RC4_128_SHA 16 20 0 rsaKA 0
                 (Some cipherRC4) (Some macSHA1) None in
  macFunction_Size (macSHA1 VersionSSL30 [x0a; x0b; x0c]) = macLen s /\
  macLen s = 20.
Proof.
  apply (@mac_Size_is_macLen
           (suite TLS_RSA_WITH_RC4_128_SHA 16 20 0 rsaKA 0
                  (Some cipherRC4) (Some macSHA1) None)
           macSHA1 VersionSSL30 [x0a; x0b; x0c]).
  - unfold cipherSuites. do 8 right. left. reflexivity.
  - reflexivity.
Defined.

Section SSL30.
Context {P : Primitives}.

Lemma slice_pad1 (s : ssl30MAC.t) :
  slice_to ssl30Pad1 (ssl30MAC.padLength s) = Returned (repeat x36 (padBytes s)).
Proof.
  unfold ssl30MAC.padLength, padBytes, ssl30MAC.Size.
  destruct (hash.Size (ssl30MAC.h s) =? 20); reflexivity.
Qed.

Lemma slice_pad2 (s : ssl30MAC.t) :
  slice_to ssl30Pad2 (ssl30MAC.padLength s) = Returned (repeat x5c (padBytes s)).
Proof.
  unfold ssl30MAC.padLength, padBytes, ssl30MAC.Size.
  destruct (hash.Size (ssl30MAC.h s) =? 20); reflexivity.
Qed.

(** What one call of [MAC] does on a 5-byte header. *)
Lemma ssl30MAC_MAC_run (s : ssl30MAC.t) (digestBuf seq data : bytes)
      (b0 b1 b2 b3 b4 : byte) :
  let pad1 := repeat x36 (padBytes s) in
  let pad2 := repeat x5c (padBytes s) in
  let d1 := firstPass s pad1 seq [b0] [b3; b4] data in
  ssl30MAC.MAC s digestBuf seq [b0; b1; b2; b3; b4] data =
  Returned ({| ssl30MAC.h :=
                 {| hash.alg := hash.alg (ssl30MAC.h s);
                    hash.written := ssl30MAC.key s ++ pad2 ++ d1 |};
               ssl30MAC.key := ssl30MAC.key s |},
            secondPass s pad2 d1).
Proof.
  intros pad1 pad2 d1. unfold ssl30MAC.MAC.
  rewrite slice_pad1, slice_pad2, slice_to_0.
  change (slice_to [b0; b1; b2; b3; b4] 1) with (Returned [b0]).
  change (slice [b0; b1; b2; b3; b4] 3 5) with (Returned [b3; b4]).
  unfold bind. rewrite slice_to_0.
  unfold hash_Sum, hash.Write, hash.Reset. simpl.
  repeat rewrite <- app_assoc.
  reflexivity.
Qed.

End SSL30.

(** C3. On a 5-byte header the SSLv3 MAC is the two-pass digest
    [H(secret ++ pad2 ++ H(secret ++ pad1 ++ seq ++ header[0] ++
    header[3..5] ++ payload))], with [pad1] and [pad2] the slices of the
    pad arrays the code takes; header bytes 1 and 2 (the version) do not
    reach the digest: any other two bytes there give the same MAC. *)
Theorem ssl30MAC_two_pass_digest {P : Primitives}
    (s : ssl30MAC.t) (digestBuf seq data : bytes) (b0 b1 b2 b3 b4 : byte) :
  exists pad1 pad2 mac,
    slice_to ssl30Pad1 (ssl30MAC.padLength s) = Returned pad1 /\
    slice_to ssl30Pad2 (ssl30MAC.padLength s) = Returned pad2 /\
    mac = digestOf s (ssl30MAC.key s ++ pad2 ++
            digestOf s (ssl30MAC.key s ++ pad1 ++ seq ++ [b0] ++ [b3; b4] ++ data)) /\
    (exists s', ssl30MAC.MAC s digestBuf seq [b0; b1; b2; b3; b4] data
                = Returned (s', mac)) /\
    (forall v1 v2, exists s',
        ssl30MAC.MAC s digestBuf seq [b0; v1; v2; b3; b4] data = Returned (s', mac)).
Proof.
  exists (repeat x36 (padBytes s)), (repeat x5c (padBytes s)).
  eexists. split; [apply slice_pad1|]. split; [apply slice_pad2|].
  split; [reflexivity|]. split.
  - eexists. apply ssl30MAC_MAC_run.
  - intros v1 v2. eexists. apply ssl30MAC_MAC_run.
Qed.

(** C4. The pads of both passes of the SSLv3 MAC are 40 bytes long when
    the digest size is 20 and 48 bytes long otherwise; the first is made
    of [0x36] bytes and the second of [0x5c] bytes, of that one length.
    The SHA-1 object [macSHA1] builds for SSLv3 gets 40 bytes. *)
Theorem ssl30MAC_pads {P : Primitives}
    (s : ssl30MAC.t) (digestBuf seq data : bytes) (b0 b1 b2 b3 b4 : byte) :
  let n := if ssl30MAC.Size s =? 20 then 40%nat else 48%nat in
  ssl30MAC.padLength s = Z.of_nat n /\
  slice_to ssl30Pad1 (ssl30MAC.padLength s) = Returned (repeat x36 n) /\
  slice_to ssl30Pad2 (ssl30MAC.padLength s) = Returned (repeat x5c n) /\
  (exists s', ssl30MAC.MAC s digestBuf seq [b0; b1; b2; b3; b4] data =
     Returned (s', digestOf s (ssl30MAC.key s ++ repeat x5c n ++
                     digestOf s (ssl30MAC.key s ++ repeat x36 n ++ seq ++
                                 [b0] ++ [b3; b4] ++ data)))) /\
  (forall key, exists s0,
      macSHA1 VersionSSL30 key = macSSL30 s0 /\ ssl30MAC.padLength s0 = 40).
Proof.
  intros n. split; [|split; [|split; [|split]]].
  - unfold ssl30MAC.padLength, n, ssl30MAC.Size.
    destruct (hash.Size (ssl30MAC.h s) =? 20); reflexivity.
  - apply slice_pad1.
  - apply slice_pad2.
  - eexists. apply ssl30MAC_MAC_run.
  - intros key. eexists. split; reflexivity.
Qed.

(** ** The fixed-nonce wrapper *)

Lemma firstn_app_exact {A} (a b : list A) (n : nat) :
  length a = n -> firstn n (a ++ b) = a.
Proof.
  intros <-. rewrite firstn_app, Nat.sub_diag, firstn_O, app_nil_r.
  apply firstn_all.
Qed.

Lemma skipn_app_exact {A} (a b : list A) (n : nat) :
  length a = n -> skipn n (a ++ b) = b.
Proof.
  intros <-. rewrite skipn_app, Nat.sub_diag, skipn_all. reflexivity.
Qed.

Lemma length_firstn_4 (buf : bytes) :
  length buf = 12%nat -> length (firstn 4 buf) = 4%nat.
Proof. intros L. rewrite length_firstn, L. reflexivity. Qed.

Lemma copy_from_12 (buf src : bytes) :
  length buf = 12%nat ->
  copy_from buf (len buf - 8) src =
  Returned (firstn 4 buf ++ copy (skipn 4 buf) src).
Proof.
  intros L. unfold copy_from, slice_from, slice, len. rewrite L.
  change (Z.of_nat 12 - 8) with 4.
  change ((0 <=? 4) && (4 <=? Z.of_nat 12) && (Z.of_nat 12 <=? Z.of_nat 12))
    with true.
  change (Z.to_nat (Z.of_nat 12 - 4)) with 8%nat.
  change (Z.to_nat 4) with 4%nat.
  cbv beta iota delta [bind].
  replace (firstn 8 (skipn 4 buf)) with (skipn 4 buf);
    [reflexivity|].
  symmetry. apply firstn_all2. rewrite length_skipn. lia.
Qed.

Lemma copy_tail_8 (buf nonce : bytes) :
  length buf = 12%nat -> length nonce = 8%nat ->
  firstn 4 buf ++ copy (skipn 4 buf) nonce = firstn 4 buf ++ nonce.
Proof.
  intros L N. f_equal. apply copy_same_length.
  rewrite length_skipn. lia.
Qed.

Lemma firstn_4_rebuilt (buf src : bytes) :
  length buf = 12%nat ->
  firstn 4 (firstn 4 buf ++ copy (skipn 4 buf) src) = firstn 4 buf /\
  length (firstn 4 buf ++ copy (skipn 4 buf) src) = 12%nat.
Proof.
  intros L. split.
  - apply firstn_app_exact, length_firstn_4, L.
  - rewrite length_app, (length_firstn_4 _ L), length_copy, length_skipn. lia.
Qed.

Lemma aeadAESGCM_Returned (key fixedNonce : bytes) (f0 : fixedNonceAEAD.t) :
  aeadAESGCM key fixedNonce = Returned f0 ->
  aesKeyLength key /\
  f0 = {| fixedNonceAEAD.sealNonce := copy (make 12) fixedNonce;
          fixedNonceAEAD.openNonce := copy (make 12) fixedNonce;
          fixedNonceAEAD.aead := {| cipher.gcmBlock := cipher.aesCipher key |} |}.
Proof.
  unfold aeadAESGCM, aes.NewCipher, aesKeyLength.
  destruct ((len key =? 16) || (len key =? 24) || (len key =? 32)) eqn:E;
    [|discriminate].
  simpl. intros [= <-]. split; [|reflexivity].
  apply orb_true_iff in E. destruct E as [E | E].
  - apply orb_true_iff in E. destruct E as [E | E]; apply Z.eqb_eq in E; auto.
  - apply Z.eqb_eq in E. auto.
Qed.

Lemma aeadAESGCM_inv (key fixedNonce : bytes) (f0 : fixedNonceAEAD.t) :
  aeadAESGCM key fixedNonce = Returned f0 ->
  wrapperInv (firstn 4 (copy (make 12) fixedNonce))
             {| cipher.gcmBlock := cipher.aesCipher key |} f0.
Proof.
  intros H. apply aeadAESGCM_Returned in H. destruct H as [_ ->].
  unfold wrapperInv. simpl. rewrite length_copy. auto.
Qed.

Lemma salt_prefix (salt : bytes) :
  length salt = 4%nat -> firstn 4 (copy (make 12) salt) = salt.
Proof.
  intros L. unfold copy.
  replace (firstn (length (make 12)) salt) with salt
    by (symmetry; apply firstn_all2; simpl; lia).
  apply firstn_app_exact, L.
Qed.

Section Wrapper.
Context {P : Primitives}.

Lemma Seal_run (f : fixedNonceAEAD.t) (out nonce plaintext ad : bytes) :
  length (fixedNonceAEAD.sealNonce f) = 12%nat ->
  let buf := firstn 4 (fixedNonceAEAD.sealNonce f) ++
             copy (skipn 4 (fixedNonceAEAD.sealNonce f)) nonce in
  fixedNonceAEAD.Seal f out nonce plaintext ad =
  ({| fixedNonceAEAD.sealNonce := buf;
      fixedNonceAEAD.openNonce := fixedNonceAEAD.openNonce f;
      fixedNonceAEAD.aead := fixedNonceAEAD.aead f |},
   gcm_Seal (fixedNonceAEAD.aead f) out buf plaintext ad).
Proof.
  intros L buf. unfold fixedNonceAEAD.Seal. rewrite copy_from_12 by exact L.
  reflexivity.
Qed.

Lemma Open_run (f : fixedNonceAEAD.t) (out nonce ciphertext ad : bytes) :
  length (fixedNonceAEAD.openNonce f) = 12%nat ->
  let buf := firstn 4 (fixedNonceAEAD.openNonce f) ++
             copy (skipn 4 (fixedNonceAEAD.openNonce f)) nonce in
  fixedNonceAEAD.Open f out nonce ciphertext ad =
  ({| fixedNonceAEAD.sealNonce := fixedNonceAEAD.sealNonce f;
      fixedNonceAEAD.openNonce := buf;
      fixedNonceAEAD.aead := fixedNonceAEAD.aead f |},
   gcm_Open (fixedNonceAEAD.aead f) out buf ciphertext ad).
Proof.
  intros L buf. unfold fixedNonceAEAD.Open. rewrite copy_from_12 by exact L.
  reflexivity.
Qed.

(** One call, with whatever arguments, keeps the invariant. *)
Lemma afterCall_inv (prefix : bytes) (g : cipher.gcm) (f : fixedNonceAEAD.t) (c : call) :
  wrapperInv prefix g f -> wrapperInv prefix g (afterCall f c).
Proof.
  intros (Ls & Lo & Ps & Po & G).
  destruct c as [out nonce text ad | out nonce text ad]; unfold afterCall.
  - rewrite Seal_run by exact Ls.
    destruct (firstn_4_rebuilt _ nonce Ls) as [F L].
    unfold wrapperInv. cbv zeta. cbn [fst fixedNonceAEAD.sealNonce fixedNonceAEAD.openNonce fixedNonceAEAD.aead].
    rewrite F, L. auto.
  - rewrite Open_run by exact Lo.
    destruct (firstn_4_rebuilt _ nonce Lo) as [F L].
    unfold wrapperInv. cbv zeta. cbn [fst fixedNonceAEAD.sealNonce fixedNonceAEAD.openNonce fixedNonceAEAD.aead].
    rewrite F, L. auto.
Qed.

Lemma afterCalls_inv (prefix : bytes) (g : cipher.gcm) (cs : list call) :
  forall f, wrapperInv prefix g f -> wrapperInv prefix g (afterCalls f cs).
Proof.
  unfold afterCalls. induction cs as [|c cs IH]; simpl; intros f H; [exact H|].
  apply IH, afterCall_inv, H.
Qed.

(** Under the invariant, a call with an 8-byte nonce hands the prefix
    followed by that nonce to the wrapped AEAD. *)
Lemma Seal_inv (prefix : bytes) (g : cipher.gcm) (f : fixedNonceAEAD.t)
      (out nonce plaintext ad : bytes) :
  wrapperInv prefix g f -> length nonce = 8%nat ->
  fixedNonceAEAD.Seal f out nonce plaintext ad =
  ({| fixedNonceAEAD.sealNonce := prefix ++ nonce;
      fixedNonceAEAD.openNonce := fixedNonceAEAD.openNonce f;
      fixedNonceAEAD.aead := g |},
   gcm_Seal g out (prefix ++ nonce) plaintext ad).
Proof.
  intros (Ls & Lo & Ps & Po & G) N.
  rewrite Seal_run by exact Ls. cbv zeta.
  rewrite (copy_tail_8 _ _ Ls N), Ps, G. reflexivity.
Qed.

Lemma Open_inv (prefix : bytes) (g : cipher.gcm) (f : fixedNonceAEAD.t)
      (out nonce ciphertext ad : bytes) :
  wrapperInv prefix g f -> length nonce = 8%nat ->
  fixedNonceAEAD.Open f out nonce ciphertext ad =
  ({| fixedNonceAEAD.sealNonce := fixedNonceAEAD.sealNonce f;
      fixedNonceAEAD.openNonce := prefix ++ nonce;
      fixedNonceAEAD.aead := g |},
   gcm_Open g out (prefix ++ nonce) ciphertext ad).
Proof.
  intros (Ls & Lo & Ps & Po & G) N.
  rewrite Open_run by exact Lo. cbv zeta.
  rewrite (copy_tail_8 _ _ Lo N), Po, G. reflexivity.
Qed.

(** C5. Every [fixedNonceAEAD] reports [NonceSize() = 8].  For the object
    [aeadAESGCM] builds from a 4-byte salt, after any calls of [Seal] and
    [Open], a [Seal] or an [Open] with an 8-byte nonce passes to the
    wrapped AEAD the 12 bytes made of the salt followed by that nonce,
    and leaves them in the buffer of its direction. *)
Theorem fixedNonceAEAD_nonce
    (key salt : bytes) (f0 : fixedNonceAEAD.t) (calls : list call)
    (out nonce text ad : bytes) :
  length salt = 4%nat ->
  aeadAESGCM key salt = Returned f0 ->
  length nonce = 8%nat ->
  let f := afterCalls f0 calls in
  let g := fixedNonceAEAD.aead f0 in
  (forall f', fixedNonceAEAD.NonceSize f' = 8) /\
  length (salt ++ nonce) = 12%nat /\
  firstn 4 (salt ++ nonce) = salt /\
  skipn 4 (salt ++ nonce) = nonce /\
  fixedNonceAEAD.Seal f out nonce text ad =
    ({| fixedNonceAEAD.sealNonce := salt ++ nonce;
        fixedNonceAEAD.openNonce := fixedNonceAEAD.openNonce f;
        fixedNonceAEAD.aead := g |},
     gcm_Seal g out (salt ++ nonce) text ad) /\
  fixedNonceAEAD.Open f out nonce text ad =
    ({| fixedNonceAEAD.sealNonce := fixedNonceAEAD.sealNonce f;
        fixedNonceAEAD.openNonce := salt ++ nonce;
        fixedNonceAEAD.aead := g |},
     gcm_Open g out (salt ++ nonce) text ad).
Proof.
  intros Lsalt Hnew Lnonce f g.
  pose proof (aeadAESGCM_inv _ _ _ Hnew) as Inv.
  rewrite (salt_prefix _ Lsalt) in Inv.
  assert (G : g = {| cipher.gcmBlock := cipher.aesCipher key |})
    by (destruct Inv as (_ & _ & _ & _ & G); exact G).
  rewrite G.
  pose proof (afterCalls_inv _ _ calls _ Inv) as Invf. fold f in Invf.
  split; [intros f'; reflexivity|].
  split; [rewrite length_app; lia|].
  split; [apply firstn_app_exact, Lsalt|].
  split; [apply skipn_app_exact, Lsalt|].
  split; [apply Seal_inv | apply Open_inv]; assumption.
Qed.

(** C6. Given a GCM primitive whose decryption undoes its encryption,
    for the object [aeadAESGCM] builds, after any calls, [Seal] of a
    plaintext within the size limit under an 8-byte nonce returns a
    ciphertext, and [Open] of that ciphertext under the same nonce and
    additional data, with any calls between the two, returns the
    plaintext (appended to [out]) and no error. *)
Theorem fixedNonceAEAD_roundtrip
    (key fixedNonce : bytes) (f0 : fixedNonceAEAD.t) (before between : list call)
    (out nonce plaintext ad : bytes) :
  gcmRoundTrip ->
  aeadAESGCM key fixedNonce = Returned f0 ->
  length nonce = 8%nat ->
  len plaintext <= gcmMaxPlaintext ->
  let sealed := fixedNonceAEAD.Seal (afterCalls f0 before) [] nonce plaintext ad in
  exists ciphertext,
    snd sealed = Returned ciphertext /\
    snd (fixedNonceAEAD.Open (afterCalls (fst sealed) between)
                             out nonce ciphertext ad)
    = Returned (out ++ plaintext, None) /\
    snd (fixedNonceAEAD.Open (afterCalls (fst sealed) between)
                             [] nonce ciphertext ad)
    = Returned (plaintext, None).
Proof.
  intros RT Hnew Lnonce Lim sealed.
  pose proof (aeadAESGCM_inv _ _ _ Hnew) as Inv.
  destruct (aeadAESGCM_Returned _ _ _ Hnew) as [Hkey _].
  set (prefix := firstn 4 (copy (make 12) fixedNonce)) in *.
  set (g := {| cipher.gcmBlock := cipher.aesCipher key |}) in *.
  pose proof (afterCalls_inv _ _ before _ Inv) as Invf.
  assert (L12 : length (prefix ++ nonce) = 12%nat).
  { destruct Inv as (Ls & _ & Ps & _).
    rewrite length_app, Lnonce, <- Ps, (length_firstn_4 _ Ls). reflexivity. }
  assert (Hsealed : sealed =
            ({| fixedNonceAEAD.sealNonce := prefix ++ nonce;
                fixedNonceAEAD.openNonce :=
                  fixedNonceAEAD.openNonce (afterCalls f0 before);
                fixedNonceAEAD.aead := g |},
             Returned (gcmEncrypt (cipher.aesCipher key) (prefix ++ nonce) plaintext ad))).
  { unfold sealed. rewrite (Seal_inv _ _ _ [] nonce plaintext ad Invf Lnonce). f_equal.
    unfold gcm_Seal, len. rewrite L12. simpl.
    destruct (gcmMaxPlaintext <? Z.of_nat (length plaintext)) eqn:E.
    - apply Z.ltb_lt in E. unfold len in Lim. lia.
    - reflexivity. }
  assert (Inv' : wrapperInv prefix g (fst sealed)).
  { rewrite Hsealed. destruct Invf as (Ls & Lo & Ps & Po & G).
    unfold wrapperInv.
    cbn [fst fixedNonceAEAD.sealNonce fixedNonceAEAD.openNonce fixedNonceAEAD.aead].
    split; [exact L12|]. split; [exact Lo|].
    split; [|split; [exact Po | reflexivity]].
    apply firstn_app_exact. rewrite <- Ps. apply length_firstn_4, Ls. }
  pose proof (afterCalls_inv _ _ between _ Inv') as Inv''.
  assert (Hopen : forall o,
             snd (fixedNonceAEAD.Open (afterCalls (fst sealed) between) o nonce
                    (gcmEncrypt (cipher.aesCipher key) (prefix ++ nonce) plaintext ad) ad)
             = Returned (o ++ plaintext, None)).
  { intros o. rewrite (Open_inv _ _ _ o nonce _ ad Inv'' Lnonce). simpl.
    unfold gcm_Open, len. rewrite L12. simpl.
    rewrite (RT key (prefix ++ nonce) plaintext ad Hkey L12 Lim). reflexivity. }
  exists (gcmEncrypt (cipher.aesCipher key) (prefix ++ nonce) plaintext ad).
  split; [rewrite Hsealed; reflexivity|].
  split; [apply Hopen | apply (Hopen [])].
Qed.

End Wrapper.

(** ** Runs on the sample primitives *)

Lemma bytes_eqb_refl (a : bytes) : bytes_eqb a a = true.
Proof.
  induction a as [|x a IH]; simpl; [reflexivity|].
  rewrite IH. destruct x; reflexivity.
Qed.

Lemma length_sampleTag (nonce data : bytes) : length (sampleTag nonce data) = 16%nat.
Proof.
  unfold sampleTag. rewrite length_firstn, !length_app, repeat_length. lia.
Qed.

Lemma sample_gcmRoundTrip : @gcmRoundTrip samplePrimitives.
Proof.
  intros key nonce plaintext data _ _ _. simpl.
  unfold sampleDecrypt, sampleEncrypt.
  rewrite length_app, length_sampleTag, length_rev.
  replace (length plaintext + 16 - 16)%nat with (length plaintext) by lia.
  replace (length plaintext + 16 <? 16)%nat with false
    by (symmetry; apply Nat.ltb_ge; lia).
  rewrite skipn_app_exact by apply length_rev.
  rewrite bytes_eqb_refl.
  rewrite firstn_app_exact by apply length_rev.
  rewrite rev_involutive. reflexivity.
Qed.

Lemma fixedNonceAEAD_nonce_run :
  let P := samplePrimitives in
  let key := repeat x01 16 in
  let salt := [xa1; xa2; xa3; xa4] in
  let g := {| cipher.gcmBlock := cipher.aesCipher key |} in
  let f0 := {| fixedNonceAEAD.sealNonce := salt ++ repeat x00 8;
               fixedNonceAEAD.openNonce := salt ++ repeat x00 8;
               fixedNonceAEAD.aead := g |} in
  let calls := [callSeal [] [x11; x12; x13; x14; x15; x16; x17; x18] [x68; x69] [];
                callOpen [] [x21; x22; x23] [x00] [x01];
                callSeal [xff] (repeat x33 20) [] []] in
  let nonce := [x08; x07; x06; x05; x04; x03; x02; x01] in
  let f := afterCalls f0 calls in
  (forall f', fixedNonceAEAD.NonceSize f' = 8) /\
  length (salt ++ nonce) = 12%nat /\
  firstn 4 (salt ++ nonce) = salt /\
  skipn 4 (salt ++ nonce) = nonce /\
  fixedNonceAEAD.Seal f [] nonce [x68; x69] [x17] =
    ({| fixedNonceAEAD.sealNonce := salt ++ nonce;
        fixedNonceAEAD.openNonce := fixedNonceAEAD.openNonce f;
        fixedNonceAEAD.aead := fixedNonceAEAD.aead f0 |},
     gcm_Seal (fixedNonceAEAD.aead f0) [] (salt ++ nonce) [x68; x69] [x17]) /\
  fixedNonceAEAD.Open f [] nonce [x68; x69] [x17] =
    ({| fixedNonceAEAD.sealNonce := fixedNonceAEAD.sealNonce f;
        fixedNonceAEAD.openNonce := salt ++ nonce;
        fixedNonceAEAD.aead := fixedNonceAEAD.aead f0 |},
     gcm_Open (fixedNonceAEAD.aead f0) [] (salt ++ nonce) [x68; x69] [x17]).
Proof.
  intros P key salt g f0 calls nonce.
  apply (@fixedNonceAEAD_nonce P key salt f0 calls [] nonce [x68; x69] [x17]);
    reflexivity.
Defined.

Lemma fixedNonceAEAD_roundtrip_run :
  let P := samplePrimitives in
  let key := repeat x01 16 in
  let fixedNonce := [xa1; xa2; xa3; xa4] in
  let g := {| cipher.gcmBlock := cipher.aesCipher key |} in
  let f0 := {| fixedNonceAEAD.sealNonce := fixedNonce ++ repeat x00 8;
               fixedNonceAEAD.openNonce := fixedNonce ++ repeat x00 8;
               fixedNonceAEAD.aead := g |} in
  let before := [callOpen [] [x21; x22; x23] [x00] [x01]] in
  let between := [callSeal [] (repeat x44 8) [x01] []] in
  let nonce := [x08; x07; x06; x05; x04; x03; x02; x01] in
  let plaintext := [x68; x65; x6c; x6c; x6f] in
  let sealed := fixedNonceAEAD.Seal (afterCalls f0 before) [] nonce plaintext [x17] in
  exists ciphertext,
    snd sealed = Returned ciphertext /\
    snd (fixedNonceAEAD.Open (afterCalls (fst sealed) between)
                             [xee] nonce ciphertext [x17])
    = Returned ([xee] ++ plaintext, None) /\
    snd (fixedNonceAEAD.Open (afterCalls (fst sealed) between)
                             [] nonce ciphertext [x17])
    = Returned (plaintext, None).
Proof.
  intros P key fixedNonce g f0 before between nonce plaintext.
  apply (@fixedNonceAEAD_roundtrip P key fixedNonce f0 before between
           [xee] nonce plaintext [x17]).
  - exact sample_gcmRoundTrip.
  - reflexivity.
  - reflexivity.
  - vm_compute. discriminate.
Defined.

(** On the sample primitives: the ciphertext of a [Seal] through the
    wrapper, and the MAC of one record under the SHA-1 slot. *)
Example sample_Seal :
  let P := samplePrimitives in
  match aeadAESGCM (repeat x01 16) [xa1; xa2; xa3; xa4] with
  | Returned f =>
      snd (fixedNonceAEAD.Seal f [] [x08; x07; x06; x05; x04; x03; x02; x01]
                               [x68; x69] [])
  | Panicked v => Panicked v
  end
  = Returned [x69; x68; xa1; xa2; xa3; xa4; x08; x07; x06; x05; x04; x03; x02; x01;
              x00; x00; x00; x00].
Proof. reflexivity. Qed.

(** ** The factories and the length of the key material *)

Lemma aesKeyLength_test (key : bytes) :
  (len key =? 16) || (len key =? 24) || (len key =? 32) = true <-> aesKeyLength key.
Proof.
  unfold aesKeyLength. rewrite !orb_true_iff, !Z.eqb_eq. tauto.
Qed.

Lemma cipherRC4_returns (key iv : bytes) (isRead : bool) :
  cipherRC4 key iv isRead = Returned (streamCipher (valueOrNil (rc4.NewCipher key))).
Proof. reflexivity. Qed.

Lemma cipher3DES_panics (key iv : bytes) (isRead : bool) :
  panics (cipher3DES key iv isRead) = true <-> len key <> 24 \/ len iv <> 8.
Proof.
  unfold cipher3DES, des.NewTripleDESCipher.
  destruct (len key =? 24) eqn:K; [apply Z.eqb_eq in K | apply Z.eqb_neq in K];
    destruct isRead; simpl;
    try (split; [intros _; now left | reflexivity]);
    destruct (len iv =? 8) eqn:I;
    [apply Z.eqb_eq in I | apply Z.eqb_neq in I
    |apply Z.eqb_eq in I | apply Z.eqb_neq in I]; simpl;
    (split; [intros E; try discriminate E; now right | intros [C | C]; congruence]).
Qed.

Lemma cipherAES_panics (key iv : bytes) (isRead : bool) :
  panics (cipherAES key iv isRead) = true <-> ~ aesKeyLength key \/ len iv <> 16.
Proof.
  unfold cipherAES, aes.NewCipher. rewrite <- aesKeyLength_test.
  destruct ((len key =? 16) || (len key =? 24) || (len key =? 32));
    destruct isRead; simpl;
    try (split; [intros _; left; discriminate | reflexivity]);
    destruct (len iv =? 16) eqn:I;
    [apply Z.eqb_eq in I | apply Z.eqb_neq in I
    |apply Z.eqb_eq in I | apply Z.eqb_neq in I]; simpl;
    (split; [intros E; try discriminate E; now right | intros [C | C]; congruence]).
Qed.

Lemma aeadAESGCM_panics (key fixedNonce : bytes) :
  panics (aeadAESGCM key fixedNonce) = true <-> ~ aesKeyLength key.
Proof.
  unfold aeadAESGCM, aes.NewCipher. rewrite <- aesKeyLength_test.
  destruct ((len key =? 16) || (len key =? 24) || (len key =? 32)); simpl.
  - split; [discriminate | intros C; exfalso; now apply C].
  - split; [intros _; discriminate | reflexivity].
Qed.

(** C2, as the code has it.  A factory panics when the primitive cannot
    take the key material, whatever the descriptor says: [cipher3DES]
    exactly when the key is not 24 bytes or the IV not 8 bytes;
    [cipherAES] exactly when the key is not 16, 24 or 32 bytes or the IV
    not 16 bytes; [aeadAESGCM] exactly when the key is not 16, 24 or 32
    bytes; [cipherRC4] never.  What is built holds the key as given, and
    the nonce buffers of [aeadAESGCM] are [copy]'s result on 12 zero
    bytes.  For the entries of the table with a cipher factory: where
    [keyLen] is 24 (the 3DES entries) a key of another length panics,
    and where [ivLen] is not 0 (the CBC entries) an IV of another length
    panics. *)
Theorem factories_panic_on_unusable_lengths :
  (forall key iv isRead,
      cipherRC4 key iv isRead = Returned (streamCipher (valueOrNil (rc4.NewCipher key)))) /\
  (forall key iv isRead,
      panics (cipher3DES key iv isRead) = true <-> len key <> 24 \/ len iv <> 8) /\
  (forall key iv isRead,
      panics (cipherAES key iv isRead) = true <-> ~ aesKeyLength key \/ len iv <> 16) /\
  (forall key fixedNonce,
      panics (aeadAESGCM key fixedNonce) = true <-> ~ aesKeyLength key) /\
  (forall key fixedNonce f,
      aeadAESGCM key fixedNonce = Returned f ->
      f = {| fixedNonceAEAD.sealNonce := copy (make 12) fixedNonce;
             fixedNonceAEAD.openNonce := copy (make 12) fixedNonce;
             fixedNonceAEAD.aead := {| cipher.gcmBlock := cipher.aesCipher key |} |}) /\
  Forall (fun s => forall f key iv isRead,
            cipher s = Some f ->
            (keyLen s = 24 -> len key <> keyLen s ->
             panics (f key iv isRead) = true) /\
            (ivLen s <> 0 -> len iv <> ivLen s ->
             panics (f key iv isRead) = true))
         cipherSuites.
Proof.
  split; [exact cipherRC4_returns|].
  split; [exact cipher3DES_panics|].
  split; [exact cipherAES_panics|].
  split; [exact aeadAESGCM_panics|].
  split.
  - intros key fixedNonce f H. now apply aeadAESGCM_Returned in H.
  - apply Forall_forall. intros s H.
    each_suite H; simpl; intros f key iv isRead E; try discriminate E;
      injection E as <-; (split; intros A B; try (exfalso; lia));
      first [ apply cipher3DES_panics; tauto | apply cipherAES_panics; tauto ].
Qed.

(** C2, as worded, fails.  The RC4 entry [0x0005] asks for a 16-byte
    key, and [cipherRC4] builds a cipher from 5 bytes; the AEAD entry
    [0xc02f] asks for a 16-byte key and a 4-byte salt, and [aeadAESGCM]
    builds its object from a 32-byte key, and from a 1-byte salt that it
    fills up with zero bytes. *)
Lemma wrong_lengths_accepted :
  (exists s, In s cipherSuites /\ id s = TLS_RSA_WITH_RC4_128_SHA /\
             keyLen s = 16 /\ cipher s = Some cipherRC4) /\
  cipherRC4 (repeat x01 5) [] false
    = Returned (streamCipher (Some {| rc4.key := repeat x01 5 |})) /\
  (exists s, In s cipherSuites /\ id s = TLS_ECDHE_RSA_WITH_AES_128_GCM_SHA256 /\
             keyLen s = 16 /\ ivLen s = 4 /\ aead s = Some aeadAESGCM) /\
  aeadAESGCM (repeat x01 32) [xa1; xa2; xa3; xa4]
    = Returned {| fixedNonceAEAD.sealNonce := [xa1; xa2; xa3; xa4] ++ repeat x00 8;
                  fixedNonceAEAD.openNonce := [xa1; xa2; xa3; xa4] ++ repeat x00 8;
                  fixedNonceAEAD.aead :=
                    {| cipher.gcmBlock := cipher.aesCipher (repeat x01 32) |} |} /\
  aeadAESGCM (repeat x01 16) [xa1]
    = Returned {| fixedNonceAEAD.sealNonce := xa1 :: repeat x00 11;
                  fixedNonceAEAD.openNonce := xa1 :: repeat x00 11;
                  fixedNonceAEAD.aead :=
                    {| cipher.gcmBlock := cipher.aesCipher (repeat x01 16) |} |} /\
  ~ wrongLengthsAbort.
Proof.
  split.
  { eexists. split; [unfold cipherSuites; do 8 right; left; reflexivity|].
    repeat split. }
  split; [reflexivity|].
  split.
  { eexists. split; [unfold cipherSuites; left; reflexivity|]. repeat split. }
  split; [reflexivity|].
  split; [reflexivity|].
  intros H.
  destruct (H (suite TLS_RSA_WITH_RC4_128_SHA 16 20 0 rsaKA 0
                     (Some cipherRC4) (Some macSHA1) None)
              (repeat x01 5) []) as [Hc _].
  - unfold cipherSuites. do 8 right. left. reflexivity.
  - left. discriminate.
  - specialize (Hc cipherRC4 false eq_refl). discriminate Hc.
Qed.

(** * Further properties *)

(** ** Slices, in and out of range *)

Lemma slice_in_range {A} (s : list A) (lo hi : Z) :
  0 <= lo -> lo <= hi -> hi <= len s ->
  slice s lo hi = Returned (firstn (Z.to_nat (hi - lo)) (skipn (Z.to_nat lo) s)).
Proof.
  intros H0 H1 H2. unfold slice.
  rewrite (proj2 (Z.leb_le _ _) H0), (proj2 (Z.leb_le _ _) H1),
          (proj2 (Z.leb_le _ _) H2).
  reflexivity.
Qed.

Lemma slice_out_of_range {A} (s : list A) (lo hi : Z) :
  len s < hi -> slice s lo hi = Panicked SliceOutOfRange.
Proof.
  intros H. unfold slice.
  rewrite (proj2 (Z.leb_gt _ _) H), andb_false_r. reflexivity.
Qed.

Lemma len_nonneg {A} (s : list A) : 0 <= len s.
Proof. unfold len. lia. Qed.

(** ** The MAC objects, any header *)

Section MACs.
Context {P : Primitives}.

(** [MAC] reads the algorithm and the key of the object, nothing else. *)
Lemma ssl30MAC_MAC_ext (s s' : ssl30MAC.t) (digestBuf seq header data : bytes) :
  hash.alg (ssl30MAC.h s) = hash.alg (ssl30MAC.h s') ->
  ssl30MAC.key s = ssl30MAC.key s' ->
  ssl30MAC.MAC s digestBuf seq header data =
  ssl30MAC.MAC s' digestBuf seq header data.
Proof.
  destruct s as [[a w] k], s' as [[a' w'] k']. simpl.
  intros -> ->. reflexivity.
Qed.

Lemma tls10MAC_MAC_ext (s s' : tls10MAC.t) (digestBuf seq header data : bytes) :
  hash.alg (tls10MAC.h s) = hash.alg (tls10MAC.h s') ->
  tls10MAC.MAC s digestBuf seq header data =
  tls10MAC.MAC s' digestBuf seq header data.
Proof.
  destruct s as [[a w]], s' as [[a' w']]. simpl.
  intros ->. reflexivity.
Qed.

(** What [ssl30MAC.MAC] does on a header of five bytes or more. *)
Lemma ssl30MAC_MAC_long (s : ssl30MAC.t) (digestBuf seq header data : bytes) :
  5 <= len header ->
  let pad1 := repeat x36 (padBytes s) in
  let pad2 := repeat x5c (padBytes s) in
  let d1 := firstPass s pad1 seq (firstn 1 header) (firstn 2 (skipn 3 header)) data in
  ssl30MAC.MAC s digestBuf seq header data =
  Returned ({| ssl30MAC.h :=
                 {| hash.alg := hash.alg (ssl30MAC.h s);
                    hash.written := ssl30MAC.key s ++ pad2 ++ d1 |};
               ssl30MAC.key := ssl30MAC.key s |},
            secondPass s pad2 d1).
Proof.
  intros L pad1 pad2 d1. unfold ssl30MAC.MAC.
  rewrite slice_pad1, slice_pad2, slice_to_0.
  unfold slice_to at 1. rewrite (slice_in_range header 0 1) by lia.
  rewrite (slice_in_range header 3 5) by lia.
  unfold bind. rewrite slice_to_0.
  change (Z.to_nat (1 - 0)) with 1%nat. change (Z.to_nat 0) with 0%nat.
  change (Z.to_nat (5 - 3)) with 2%nat. change (Z.to_nat 3) with 3%nat.
  unfold hash_Sum, hash.Write, hash.Reset, skipn at 1.
  cbn [hash.alg hash.written app].
  repeat rewrite <- app_assoc.
  reflexivity.
Qed.

(** On a shorter header one of the two slice expressions panics. *)
Lemma ssl30MAC_MAC_short (s : ssl30MAC.t) (digestBuf seq header data : bytes) :
  len header < 5 ->
  ssl30MAC.MAC s digestBuf seq header data = Panicked SliceOutOfRange.
Proof.
  intros L. unfold ssl30MAC.MAC.
  rewrite slice_pad1. rewrite (slice_out_of_range header 3 5) by exact L.
  unfold slice_to at 1.
  destruct (Z_lt_le_dec (len header) 1) as [L1 | L1].
  - rewrite (slice_out_of_range header 0 1) by exact L1. reflexivity.
  - rewrite (slice_in_range header 0 1) by lia. reflexivity.
Qed.

(** What [tls10MAC.MAC] does: no slice of the header is taken. *)
Lemma tls10MAC_MAC_run (s : tls10MAC.t) (digestBuf seq header data : bytes) :
  tls10MAC.MAC s digestBuf seq header data =
  Returned ({| tls10MAC.h :=
                 {| hash.alg := hash.alg (tls10MAC.h s);
                    hash.written := seq ++ header ++ data |} |},
            digest (hash.alg (tls10MAC.h s)) (seq ++ header ++ data)).
Proof.
  unfold tls10MAC.MAC. rewrite slice_to_0. unfold bind.
  unfold hash_Sum, hash.Write, hash.Reset.
  cbn [hash.alg hash.written app].
  repeat rewrite <- app_assoc. reflexivity.
Qed.

(** X1. A [macFunction] can be used again: on the object a call of
    [MAC] leaves behind, every further call does what it does on the
    object before that call, and [Size] is as before. *)
Theorem macFunction_MAC_reuse
    (m m' : macFunction) (digestBuf seq header data mac : bytes) :
  macFunction_MAC m digestBuf seq header data = Returned (m', mac) ->
  macFunction_Size m' = macFunction_Size m /\
  forall digestBuf' seq' header' data',
    macFunction_MAC m' digestBuf' seq' header' data' =
    macFunction_MAC m digestBuf' seq' header' data'.
Proof.
  destruct m as [s | s]; unfold macFunction_MAC.
  - destruct (Z_lt_le_dec (len header) 5) as [L | L].
    + rewrite ssl30MAC_MAC_short by exact L. discriminate.
    + rewrite ssl30MAC_MAC_long by exact L. cbv zeta. unfold bind.
      cbn [fst snd]. intros [= <- _]. split; [reflexivity|].
      intros b q h d. erewrite ssl30MAC_MAC_ext; reflexivity.
  - rewrite tls10MAC_MAC_run. unfold bind. cbn [fst snd].
    intros [= <- _]. split; [reflexivity|].
    intros b q h d. erewrite tls10MAC_MAC_ext; reflexivity.
Qed.


(** X3. [macSHA1] from end to end.  For [VersionSSL30] the object is
    the SSLv3 MAC over SHA-1 with the key as given, so on a 5-byte
    header its MAC is the two-pass SHA-1 digest with 40-byte pads.  For
    every other version the object is the HMAC-SHA1 keyed with the key,
    and its MAC never panics: whatever the buffer and the length of the
    header, it is the HMAC of [seq ++ header ++ data], the whole header
    included. *)
Theorem macSHA1_MAC_digest (key digestBuf seq data : bytes) :
  (forall b0 b1 b2 b3 b4, exists m',
      macFunction_MAC (macSHA1 VersionSSL30 key) digestBuf seq [b0; b1; b2; b3; b4] data =
      Returned (m', digest hash.SHA1
                      (key ++ repeat x5c 40 ++
                       digest hash.SHA1
                         (key ++ repeat x36 40 ++ seq ++ [b0] ++ [b3; b4] ++ data)))) /\
  (forall version header, version <> VersionSSL30 -> exists m',
      macFunction_MAC (macSHA1 version key) digestBuf seq header data =
      Returned (m', digest (hash.HMAC hash.SHA1 key) (seq ++ header ++ data))).
Proof.
  split.
  - intros b0 b1 b2 b3 b4. unfold macSHA1. rewrite Z.eqb_refl. cbv zeta.
    cbn [ssl30MAC.h ssl30MAC.key].
    rewrite copy_same_length by (unfold make; now rewrite repeat_length).
    unfold macFunction_MAC. rewrite ssl30MAC_MAC_run. cbv zeta.
    unfold bind. cbn [fst snd]. eexists. reflexivity.
  - intros version header V. unfold macSHA1.
    rewrite (proj2 (Z.eqb_neq _ _) V).
    unfold macFunction_MAC. rewrite tls10MAC_MAC_run.
    unfold bind. cbn [fst snd]. eexists. reflexivity.
Qed.

End MACs.

Lemma macFunction_MAC_reuse_run :
  let P := samplePrimitives in
  let m := macTLS10 {| tls10MAC.h := hmac.New sha1.New [x6b] |} in
  let seq := repeat x00 8 in
  let header := [x17; x03; x01; x00; x02] in
  let written := seq ++ header ++ [x68; x69] in
  let m' := macTLS10 {| tls10MAC.h :=
                          {| hash.alg := hash.HMAC hash.SHA1 [x6b];
                             hash.written := written |} |} in
  macFunction_Size m' = macFunction_Size m /\
  forall digestBuf' seq' header' data',
    macFunction_MAC m' digestBuf' seq' header' data' =
    macFunction_MAC m digestBuf' seq' header' data'.
Proof.
  intros P m seq header written m'.
  apply (@macFunction_MAC_reuse P m m' [xff; xff] seq header [x68; x69]
           (sampleDigest (hash.HMAC hash.SHA1 [x6b]) written)).
  reflexivity.
Defined.

(** ** The wrapper: nonces of any length, the two directions *)

Lemma skipn_repeat {A} (x : A) (n m : nat) : skipn n (repeat x m) = repeat x (m - n).
Proof.
  revert m. induction n as [|n IH]; intros [|m]; simpl; try reflexivity.
  apply IH.
Qed.

(** The first four bytes [aeadAESGCM] leaves in its buffers: those of
    the fixed nonce, zero-filled when it has fewer. *)
Lemma fixedNonce_prefix (fixedNonce : bytes) :
  firstn 4 (copy (make 12) fixedNonce) = firstn 4 (fixedNonce ++ repeat x00 4).
Proof.
  unfold copy, make. rewrite repeat_length, skipn_repeat, !firstn_app.
  rewrite firstn_firstn. change (Nat.min 4 12) with 4%nat. f_equal.
  rewrite length_firstn.
  destruct (Nat.le_gt_cases 4 (length fixedNonce)) as [L | L].
  - replace (4 - Nat.min 12 (length fixedNonce))%nat with 0%nat by lia.
    replace (4 - length fixedNonce)%nat with 0%nat by lia.
    reflexivity.
  - replace (Nat.min 12 (length fixedNonce)) with (length fixedNonce) by lia.
    rewrite !firstn_repeat by lia. reflexivity.
Qed.

Lemma copy_firstn {A} (dst src : list A) :
  copy dst (firstn (length dst) src) = copy dst src.
Proof.
  unfold copy. rewrite firstn_firstn, Nat.min_id, length_firstn. f_equal.
  destruct (Nat.le_gt_cases (length dst) (length src)) as [L | L].
  - rewrite Nat.min_l by exact L. rewrite !skipn_all2 by lia. reflexivity.
  - rewrite Nat.min_r by lia. reflexivity.
Qed.

(** [copy(buf[len(buf)-8:], src)] reads eight bytes of [src] at most. *)
Lemma copy_from_firstn_8 (buf src : bytes) :
  copy_from buf (len buf - 8) (firstn 8 src) = copy_from buf (len buf - 8) src.
Proof.
  unfold copy_from, slice_from, slice.
  destruct ((0 <=? len buf - 8) && (len buf - 8 <=? len buf) && (len buf <=? len buf))
    eqn:E; [|reflexivity].
  apply andb_true_iff in E. destruct E as [E _].
  apply andb_true_iff in E. destruct E as [E _]. apply Z.leb_le in E.
  unfold bind. f_equal. f_equal.
  set (tail := firstn _ _).
  assert (L : length tail = 8%nat).
  { unfold tail, len in *. rewrite length_firstn, length_skipn. lia. }
  rewrite <- L. apply copy_firstn.
Qed.

Lemma copy_tail_formula (buf src : bytes) :
  length buf = 12%nat ->
  copy (skipn 4 buf) src = firstn 8 src ++ skipn (length src + 4) buf.
Proof.
  intros L. unfold copy. rewrite length_skipn, L, skipn_skipn. reflexivity.
Qed.

Section WrapperEdges.
Context {P : Primitives}.

(** X4. [Seal] and [Open] read at most eight bytes of the nonce they
    are given: on every object, a call with a nonce does what the call
    with the first eight bytes of that nonce does. *)
Theorem fixedNonceAEAD_nonce_cut
    (f : fixedNonceAEAD.t) (out nonce text ad : bytes) :
  fixedNonceAEAD.Seal f out nonce text ad =
  fixedNonceAEAD.Seal f out (firstn 8 nonce) text ad /\
  fixedNonceAEAD.Open f out nonce text ad =
  fixedNonceAEAD.Open f out (firstn 8 nonce) text ad.
Proof.
  unfold fixedNonceAEAD.Seal, fixedNonceAEAD.Open.
  rewrite !copy_from_firstn_8. split; reflexivity.
Qed.

Lemma Seal_sameSealSide (f f' : fixedNonceAEAD.t) (out nonce text ad : bytes) :
  sameSealSide f f' ->
  snd (fixedNonceAEAD.Seal f out nonce text ad) =
  snd (fixedNonceAEAD.Seal f' out nonce text ad) /\
  sameSealSide (fst (fixedNonceAEAD.Seal f out nonce text ad))
               (fst (fixedNonceAEAD.Seal f' out nonce text ad)).
Proof.
  destruct f as [s o g], f' as [s' o' g']. unfold sameSealSide. simpl.
  intros [<- <-]. unfold fixedNonceAEAD.Seal. simpl.
  destruct (copy_from s (len s - 8) nonce); simpl; auto.
Qed.

Lemma Open_keeps_sealSide (f : fixedNonceAEAD.t) (out nonce text ad : bytes) :
  sameSealSide (fst (fixedNonceAEAD.Open f out nonce text ad)) f.
Proof.
  unfold fixedNonceAEAD.Open, sameSealSide.
  destruct (copy_from _ _ nonce); simpl; auto.
Qed.

Lemma Open_sameOpenSide (f f' : fixedNonceAEAD.t) (out nonce text ad : bytes) :
  sameOpenSide f f' ->
  snd (fixedNonceAEAD.Open f out nonce text ad) =
  snd (fixedNonceAEAD.Open f' out nonce text ad) /\
  sameOpenSide (fst (fixedNonceAEAD.Open f out nonce text ad))
               (fst (fixedNonceAEAD.Open f' out nonce text ad)).
Proof.
  destruct f as [s o g], f' as [s' o' g']. unfold sameOpenSide. simpl.
  intros [<- <-]. unfold fixedNonceAEAD.Open. simpl.
  destruct (copy_from o (len o - 8) nonce); simpl; auto.
Qed.

Lemma Seal_keeps_openSide (f : fixedNonceAEAD.t) (out nonce text ad : bytes) :
  sameOpenSide (fst (fixedNonceAEAD.Seal f out nonce text ad)) f.
Proof.
  unfold fixedNonceAEAD.Seal, sameOpenSide.
  destruct (copy_from _ _ nonce); simpl; auto.
Qed.

Lemma afterCalls_sealSide (cs : list call) :
  forall f f', sameSealSide f f' ->
    sameSealSide (afterCalls f cs) (afterCalls f' (filter isSealCall cs)).
Proof.
  unfold afterCalls.
  induction cs as [|c cs IH]; intros f f' H; [exact H|].
  destruct c as [o n t a | o n t a]; simpl.
  - apply IH. apply Seal_sameSealSide. exact H.
  - apply IH. destruct (Open_keeps_sealSide f o n t a) as [E1 E2].
    destruct H as [H1 H2]. split; congruence.
Qed.

Lemma afterCalls_openSide (cs : list call) :
  forall f f', sameOpenSide f f' ->
    sameOpenSide (afterCalls f cs) (afterCalls f' (filter isOpenCall cs)).
Proof.
  unfold afterCalls.
  induction cs as [|c cs IH]; intros f f' H; [exact H|].
  destruct c as [o n t a | o n t a]; simpl.
  - apply IH. destruct (Seal_keeps_openSide f o n t a) as [E1 E2].
    destruct H as [H1 H2]. split; congruence.
  - apply IH. apply Open_sameOpenSide. exact H.
Qed.

(** X5. The two directions of a wrapper do not touch each other: what
    [Seal] returns after a history of calls is what it returns after the
    [Seal] calls of that history alone, and what [Open] returns is what
    it returns after the [Open] calls alone.  This holds on every
    object and for nonces of every length. *)
Theorem fixedNonceAEAD_directions_apart
    (f : fixedNonceAEAD.t) (calls : list call) (out nonce text ad : bytes) :
  snd (fixedNonceAEAD.Seal (afterCalls f calls) out nonce text ad) =
  snd (fixedNonceAEAD.Seal (afterCalls f (filter isSealCall calls)) out nonce text ad) /\
  snd (fixedNonceAEAD.Open (afterCalls f calls) out nonce text ad) =
  snd (fixedNonceAEAD.Open (afterCalls f (filter isOpenCall calls)) out nonce text ad).
Proof.
  split.
  - apply Seal_sameSealSide, afterCalls_sealSide. split; reflexivity.
  - apply Open_sameOpenSide, afterCalls_openSide. split; reflexivity.
Qed.

(** X6. The nonce a wrapper built by [aeadAESGCM] hands to GCM, for a
    fixed nonce and an explicit nonce of any length: always 12 bytes;
    the first four are those of the fixed nonce, zero-filled when it has
    fewer; then come the first eight bytes of the explicit nonce; when
    it has fewer than eight, the bytes an earlier call left at the end
    of the buffer stay. *)
Theorem fixedNonceAEAD_nonce_any_length
    (key fixedNonce : bytes) (f0 : fixedNonceAEAD.t) (calls : list call)
    (out nonce text ad : bytes) :
  aeadAESGCM key fixedNonce = Returned f0 ->
  let f := afterCalls f0 calls in
  let g := {| cipher.gcmBlock := cipher.aesCipher key |} in
  let salt := firstn 4 (fixedNonce ++ repeat x00 4) in
  let sealBuf := salt ++ firstn 8 nonce ++
                 skipn (length nonce + 4) (fixedNonceAEAD.sealNonce f) in
  let openBuf := salt ++ firstn 8 nonce ++
                 skipn (length nonce + 4) (fixedNonceAEAD.openNonce f) in
  length sealBuf = 12%nat /\ length openBuf = 12%nat /\
  fixedNonceAEAD.Seal f out nonce text ad =
    ({| fixedNonceAEAD.sealNonce := sealBuf;
        fixedNonceAEAD.openNonce := fixedNonceAEAD.openNonce f;
        fixedNonceAEAD.aead := g |},
     gcm_Seal g out sealBuf text ad) /\
  fixedNonceAEAD.Open f out nonce text ad =
    ({| fixedNonceAEAD.sealNonce := fixedNonceAEAD.sealNonce f;
        fixedNonceAEAD.openNonce := openBuf;
        fixedNonceAEAD.aead := g |},
     gcm_Open g out openBuf text ad).
Proof.
  intros Hnew f g salt sealBuf openBuf.
  pose proof (aeadAESGCM_inv _ _ _ Hnew) as Inv.
  rewrite fixedNonce_prefix in Inv. fold salt g in Inv.
  pose proof (afterCalls_inv _ _ calls _ Inv) as Invf. fold f in Invf.
  destruct Invf as (Ls & Lo & Ps & Po & G).
  assert (Es : firstn 4 (fixedNonceAEAD.sealNonce f) ++
               copy (skipn 4 (fixedNonceAEAD.sealNonce f)) nonce = sealBuf).
  { rewrite Ps, (copy_tail_formula _ nonce Ls). reflexivity. }
  assert (Eo : firstn 4 (fixedNonceAEAD.openNonce f) ++
               copy (skipn 4 (fixedNonceAEAD.openNonce f)) nonce = openBuf).
  { rewrite Po, (copy_tail_formula _ nonce Lo). reflexivity. }
  split; [rewrite <- Es; apply (firstn_4_rebuilt _ nonce Ls)|].
  split; [rewrite <- Eo; apply (firstn_4_rebuilt _ nonce Lo)|].
  split.
  - rewrite (Seal_run f out nonce text ad Ls). cbv zeta. rewrite Es, G. reflexivity.
  - rewrite (Open_run f out nonce text ad Lo). cbv zeta. rewrite Eo, G. reflexivity.
Qed.


(** X8. [Overhead] is what [Seal] adds.  Given a GCM primitive that
    adds its tag to the plaintext and nothing else, what [Seal] returns
    on a wrapper built by [aeadAESGCM] starts with [out] and is
    [Overhead()] bytes longer than [out] and the plaintext together. *)
Theorem fixedNonceAEAD_Overhead
    (key fixedNonce : bytes) (f0 : fixedNonceAEAD.t) (calls : list call)
    (out nonce plaintext ad sealed : bytes) :
  gcmTagAdded ->
  aeadAESGCM key fixedNonce = Returned f0 ->
  snd (fixedNonceAEAD.Seal (afterCalls f0 calls) out nonce plaintext ad)
    = Returned sealed ->
  len sealed = len out + len plaintext + fixedNonceAEAD.Overhead (afterCalls f0 calls) /\
  firstn (length out) sealed = out.
Proof.
  intros Tag Hnew.
  pose proof (aeadAESGCM_inv _ _ _ Hnew) as Inv.
  pose proof (afterCalls_inv _ _ calls _ Inv) as (Ls & _).
  rewrite (Seal_run _ out nonce plaintext ad Ls). cbv zeta. cbn [snd].
  unfold gcm_Seal.
  destruct (negb _); [discriminate|].
  destruct (gcmMaxPlaintext <? len plaintext); [discriminate|].
  intros [= <-]. split.
  - rewrite len_app, Tag. unfold fixedNonceAEAD.Overhead. lia.
  - apply firstn_app_exact. reflexivity.
Qed.

End WrapperEdges.

Lemma sample_gcmTagAdded : @gcmTagAdded samplePrimitives.
Proof.
  intros b nonce plaintext data. simpl. unfold sampleEncrypt.
  rewrite len_app. unfold len. rewrite length_sampleTag, length_rev.
  reflexivity.
Qed.

Lemma fixedNonceAEAD_nonce_any_length_run :
  let P := samplePrimitives in
  let key := repeat x01 16 in
  let g := {| cipher.gcmBlock := cipher.aesCipher key |} in
  let f0 := {| fixedNonceAEAD.sealNonce := xa1 :: repeat x00 11;
               fixedNonceAEAD.openNonce := xa1 :: repeat x00 11;
               fixedNonceAEAD.aead := g |} in
  let calls := [callSeal [] [x11; x12; x13; x14; x15; x16; x17; x18] [x68] []] in
  let f := afterCalls f0 calls in
  let nonce := [x01; x02; x03] in
  let sealBuf := [xa1; x00; x00; x00; x01; x02; x03; x14; x15; x16; x17; x18] in
  let openBuf := [xa1; x00; x00; x00; x01; x02; x03; x00; x00; x00; x00; x00] in
  length sealBuf = 12%nat /\ length openBuf = 12%nat /\
  fixedNonceAEAD.Seal f [] nonce [x68; x69] [] =
    ({| fixedNonceAEAD.sealNonce := sealBuf;
        fixedNonceAEAD.openNonce := fixedNonceAEAD.openNonce f;
        fixedNonceAEAD.aead := g |},
     gcm_Seal g [] sealBuf [x68; x69] []) /\
  fixedNonceAEAD.Open f [] nonce [x68; x69] [] =
    ({| fixedNonceAEAD.sealNonce := fixedNonceAEAD.sealNonce f;
        fixedNonceAEAD.openNonce := openBuf;
        fixedNonceAEAD.aead := g |},
     gcm_Open g [] openBuf [x68; x69] []).
Proof.
  intros P key g f0 calls f nonce sealBuf openBuf.
  apply (@fixedNonceAEAD_nonce_any_length P key [xa1] f0 calls [] nonce [x68; x69] []).
  reflexivity.
Defined.


Lemma fixedNonceAEAD_Overhead_run :
  let P := samplePrimitives in
  let key := repeat x01 16 in
  let salt := [xa1; xa2; xa3; xa4] in
  let f0 := {| fixedNonceAEAD.sealNonce := salt ++ repeat x00 8;
               fixedNonceAEAD.openNonce := salt ++ repeat x00 8;
               fixedNonceAEAD.aead := {| cipher.gcmBlock := cipher.aesCipher key |} |} in
  let nonce := [x08; x07; x06; x05; x04; x03; x02; x01] in
  let sealed := [xee; x69; x68] ++ salt ++ nonce ++ repeat x00 4 in
  len sealed = len [xee] + len [x68; x69] + fixedNonceAEAD.Overhead (afterCalls f0 []) /\
  firstn (length [xee]) sealed = [xee].
Proof.
  intros P key salt f0 nonce sealed.
  apply (@fixedNonceAEAD_Overhead P key salt f0 [] [xee] nonce [x68; x69] [] sealed).
  - exact sample_gcmTagAdded.
  - reflexivity.
  - reflexivity.
Defined.

(** ** The table, the factories and the lists together *)

Lemma copy_make_12_salt (iv : bytes) :
  length iv = 4%nat -> copy (make 12) iv = iv ++ repeat x00 8.
Proof.
  intros L. unfold copy, make. rewrite repeat_length, L, skipn_repeat.
  replace (firstn 12 iv) with iv by (symmetry; apply firstn_all2; lia).
  reflexivity.
Qed.

Ltac known_length :=
  repeat match goal with
         | H : len ?k = _ |- context [len ?k] => rewrite H
         end.

(** X9. Key material of a descriptor's own lengths is always taken.
    For every entry of [cipherSuites], a key of [keyLen] bytes and an IV
    of [ivLen] bytes: the cipher factory returns, without a panic, the
    RC4 cipher over that key, or the CBC mode over AES or 3DES with that
    key and that IV, a decrypter for the read side and an encrypter for
    the write side; the AEAD factory returns the wrapper over AES-GCM
    with that key whose two buffers are the salt and eight zero bytes. *)
Theorem suites_take_own_lengths (s : cipherSuite) (key iv : bytes) :
  In s cipherSuites ->
  len key = keyLen s ->
  len iv = ivLen s ->
  (forall f (isRead : bool), cipher s = Some f ->
     let mode := if isRead then cipher.cbcDecrypter else cipher.cbcEncrypter in
     f key iv isRead = Returned (streamCipher (Some {| rc4.key := key |})) \/
     f key iv isRead = Returned (blockMode (mode (cipher.aesCipher key) iv)) \/
     f key iv isRead = Returned (blockMode (mode (cipher.tripleDESCipher key) iv))) /\
  (forall g, aead s = Some g ->
     g key iv =
     Returned {| fixedNonceAEAD.sealNonce := iv ++ repeat x00 8;
                 fixedNonceAEAD.openNonce := iv ++ repeat x00 8;
                 fixedNonceAEAD.aead :=
                   {| cipher.gcmBlock := cipher.aesCipher key |} |}).
Proof.
  intros H.
  each_suite H; simpl; intros K I; (split; [intros f isRead E | intros g E]);
    try discriminate E; injection E as <-; cbv zeta.
  all: try (unfold aeadAESGCM, aes.NewCipher; known_length; simpl;
            rewrite copy_make_12_salt by (unfold len in I; lia); reflexivity).
  all: try (left; unfold cipherRC4, rc4.NewCipher; known_length; reflexivity).
  all: try (right; left; unfold cipherAES, aes.NewCipher, cipher.NewCBCDecrypter,
              cipher.NewCBCEncrypter; known_length; simpl;
            destruct isRead; simpl; known_length; reflexivity).
  all: right; right; unfold cipher3DES, des.NewTripleDESCipher, cipher.NewCBCDecrypter,
         cipher.NewCBCEncrypter; known_length; simpl;
       destruct isRead; simpl; known_length; reflexivity.
Qed.

Lemma suites_take_own_lengths_run :
  let s := suite TLS_RSA_WITH_3DES_EDE_CBC_SHA 24 20 8 rsaKA 0
                 (Some cipher3DES) (Some macSHA1) None in
  let key := repeat x01 24 in
  let iv := repeat x02 8 in
  (forall f (isRead : bool), cipher s = Some f ->
     let mode := if isRead then cipher.cbcDecrypter else cipher.cbcEncrypter in
     f key iv isRead = Returned (streamCipher (Some {| rc4.key := key |})) \/
     f key iv isRead = Returned (blockMode (mode (cipher.aesCipher key) iv)) \/
     f key iv isRead = Returned (blockMode (mode (cipher.tripleDESCipher key) iv))) /\
  (forall g, aead s = Some g ->
     g key iv =
     Returned {| fixedNonceAEAD.sealNonce := iv ++ repeat x00 8;
                 fixedNonceAEAD.openNonce := iv ++ repeat x00 8;
                 fixedNonceAEAD.aead :=
                   {| cipher.gcmBlock := cipher.aesCipher key |} |}).
Proof.
  intros s key iv.
  apply (@suites_take_own_lengths s key iv).
  - unfold cipherSuites. do 13 right. left. reflexivity.
  - reflexivity.
  - reflexivity.
Defined.

Lemma cipherInList_app (c : Z) (l1 l2 : list Z) :
  cipherInList c (l1 ++ l2) = cipherInList c l1 || cipherInList c l2.
Proof.
  induction l1 as [|v l1 IH]; simpl; [reflexivity|].
  destruct (c =? v); [reflexivity | exact IH].
Qed.

Lemma cipherInList_filter (p : Z -> bool) (c : Z) (l : list Z) :
  cipherInList c (filter p l) = cipherInList c l && p c.
Proof.
  induction l as [|v l IH]; simpl; [reflexivity|].
  destruct (c =? v) eqn:E.
  - apply Z.eqb_eq in E. subst v. destruct (p c) eqn:Pc; simpl.
    + now rewrite Z.eqb_refl.
    + rewrite IH. apply andb_false_r.
  - destruct (p v); simpl; [rewrite E|]; exact IH.
Qed.

Lemma mutualCipherSuite_unfold (have : list Z) (want : Z) :
  mutualCipherSuite have want =
  if cipherInList want have then suiteById cipherSuites want else None.
Proof.
  induction have as [|x rest IH]; cbn [mutualCipherSuite cipherInList];
    [reflexivity|].
  rewrite (Z.eqb_sym want x). destruct (x =? want); [reflexivity | exact IH].
Qed.

(** X10. [mutualCipherSuite] is [cipherInList] followed by the lookup
    in the table: it is the table's entry for [want] when [cipherInList
    want have] holds and nil otherwise.  So it looks at [have] as a set:
    two lists with the same elements, in any order and with any
    repetitions, give the same answer, and on a concatenation the answer
    is that of the first part unless that is nil. *)
Theorem mutualCipherSuite_cipherInList :
  (forall have want,
      mutualCipherSuite have want =
      if cipherInList want have then suiteById cipherSuites want else None) /\
  (forall have have' want,
      (forall c, In c have <-> In c have') ->
      mutualCipherSuite have want = mutualCipherSuite have' want) /\
  (forall have1 have2 want,
      mutualCipherSuite (have1 ++ have2) want =
      match mutualCipherSuite have1 want with
      | Some s => Some s
      | None => mutualCipherSuite have2 want
      end).
Proof.
  pose proof mutualCipherSuite_unfold as A.
  split; [exact A|]. split.
  - intros have have' want Same. rewrite !A.
    destruct (cipherInList want have) eqn:E, (cipherInList want have') eqn:E';
      try reflexivity; exfalso.
    + apply cipherInList_In, Same, cipherInList_In in E. congruence.
    + apply cipherInList_In, Same, cipherInList_In in E'. congruence.
  - intros have1 have2 want. rewrite !A, cipherInList_app.
    generalize (suiteById cipherSuites want). intros found.
    destruct (cipherInList want have1), (cipherInList want have2), found;
      reflexivity.
Qed.

(** X11. Two of the lists name parts of the table.  [CBCSuiteIDList]
    holds exactly the ids of the entries whose cipher factory builds a
    CBC block mode, and [RSACiphers] exactly the ids of the entries whose
    key agreement is the plain RSA one. *)
Theorem lists_name_table_parts :
  (forall c, cipherInList c CBCSuiteIDList = true <->
             exists s, suiteById cipherSuites c = Some s /\ buildsCBC s = true) /\
  (forall c version,
      cipherInList c RSACiphers = true <->
      exists s, suiteById cipherSuites c = Some s /\ ka s version = rsaKeyAgreement).
Proof.
  split.
  - intros c. split.
    + rewrite cipherInList_In. unfold CBCSuiteIDList. simpl In.
      intros H. repeat (destruct H as [<- | H]); [.. | contradiction];
        eexists; split; reflexivity.
    + intros (s & H & B). apply suiteById_Some in H. destruct H as [H <-].
      each_suite H; first [reflexivity | discriminate B].
  - intros c version. split.
    + rewrite cipherInList_In. unfold RSACiphers. simpl In.
      intros H. repeat (destruct H as [<- | H]); [.. | contradiction];
        eexists; split; reflexivity.
    + intros (s & H & B). apply suiteById_Some in H. destruct H as [H <-].
      each_suite H; first [reflexivity | discriminate B].
Qed.

Ltac eval_flags :=
  repeat match goal with
         | |- context [hasFlag ?s ?f] =>
             let b := eval vm_compute in (hasFlag s f) in
             change (hasFlag s f) with b
         end.

(** X12. The flags of every entry of [cipherSuites] agree with the
    rest of the entry: [suiteECDHE] is set exactly when the key
    agreement is the ECDHE one, which is made for the version it is asked
    for, and otherwise the key agreement is plain RSA; [suiteECDSA] is
    set exactly when that agreement signs with ECDSA; [suiteTLS12] is set
    on entries with an AEAD only, and on all of them but one: the entry
    [TLS_RSA_WITH_AES_128_GCM_SHA256] has an AEAD and no flag. *)
Theorem cipherSuites_flags_agree :
  Forall (fun s => forall version,
            (hasFlag s suiteECDHE = true <->
             exists sigType, ka s version = ecdheKeyAgreement sigType version) /\
            (hasFlag s suiteECDHE = false <-> ka s version = rsaKeyAgreement) /\
            (hasFlag s suiteECDSA = true <->
             ka s version = ecdheKeyAgreement signatureECDSA version) /\
            (hasFlag s suiteTLS12 = true <->
             aead s <> None /\ id s <> TLS_RSA_WITH_AES_128_GCM_SHA256))
         cipherSuites.
Proof.
  apply Forall_forall. intros s H.
  each_suite H; intros version; eval_flags;
    unfold suite, ecdheRSAKA, ecdheECDSAKA, rsaKA; cbn [ka aead];
    repeat match goal with |- _ /\ _ => split end;
    (split; intros E;
     first [ reflexivity | discriminate | discriminate E | congruence
           | eexists; reflexivity
           | split; [discriminate | vm_compute; discriminate]
           | match type of E with
             | ex _ => destruct E as [x E]; discriminate E
             | _ /\ _ => destruct E as [E1 E2]; exfalso;
                         first [ apply E1; reflexivity | apply E2; reflexivity ]
             end ]).
Qed.

(** X13. [ChromeNoDHECiphers] is [ChromeCiphers] without the members
    of [DHECiphers], in the same order; so [cipherInList] finds an id in
    it exactly when it finds the id in [ChromeCiphers] and not in
    [DHECiphers]. *)
Theorem ChromeNoDHECiphers_filter :
  ChromeNoDHECiphers =
  filter (fun c => negb (cipherInList c DHECiphers)) ChromeCiphers /\
  forall c, cipherInList c ChromeNoDHECiphers =
            cipherInList c ChromeCiphers && negb (cipherInList c DHECiphers).
Proof.
  assert (E : ChromeNoDHECiphers =
              filter (fun c => negb (cipherInList c DHECiphers)) ChromeCiphers)
    by reflexivity.
  split; [exact E|]. intros c. rewrite E. apply cipherInList_filter.
Qed.

(** X14. The export lists are nested as their names say: every id
    [cipherInList] finds in [RSA512ExportCiphers] it finds in
    [RSAExportCiphers], every id of [RSAExportCiphers] and of
    [DHEExportCiphers] it finds in [ExportCiphers]; it finds nothing in
    [DHE512ExportCiphers], which is empty; and no export id has an entry
    in [cipherSuites], so [mutualCipherSuite] answers nil for it
    whatever the list of supported ids. *)
Theorem export_lists_nested :
  (forall c, cipherInList c RSA512ExportCiphers = true ->
             cipherInList c RSAExportCiphers = true) /\
  (forall c, cipherInList c RSAExportCiphers = true ->
             cipherInList c ExportCiphers = true) /\
  (forall c, cipherInList c DHEExportCiphers = true ->
             cipherInList c ExportCiphers = true) /\
  (forall c, cipherInList c DHE512ExportCiphers = false) /\
  (forall c have, cipherInList c ExportCiphers = true ->
                  mutualCipherSuite have c = None).
Proof.
  assert (sub : forall l1 l2,
             forallb (fun c => cipherInList c l2) l1 = true ->
             forall c, cipherInList c l1 = true -> cipherInList c l2 = true).
  { intros l1 l2 F c H. apply cipherInList_In in H.
    rewrite forallb_forall in F. apply F, H. }
  split; [apply sub; reflexivity|].
  split; [apply sub; reflexivity|].
  split; [apply sub; reflexivity|].
  split; [reflexivity|].
  intros c have H. rewrite mutualCipherSuite_unfold.
  apply cipherInList_In in H. unfold ExportCiphers in H. simpl In in H.
  repeat (destruct H as [<- | H]); [.. | contradiction];
    destruct (cipherInList _ have); reflexivity.
Qed.

Lemma distinct_NoDup (l : list Z) : distinct l = true -> NoDup l.
Proof.
  induction l as [|c rest IH]; simpl; [constructor|].
  intros H. apply andb_true_iff in H. destruct H as [H1 H2].
  constructor; [|apply IH, H2].
  intros Hin. apply cipherInList_In in Hin. rewrite Hin in H1. discriminate.
Qed.

(** X15. Every identifier list of the file is free of duplicates and
    holds [uint16] values only, and so do the ids of [cipherSuites]. *)
Theorem catalog_wellformed :
  Forall (fun l => NoDup l /\ forallb isUint16 l = true) catalog /\
  NoDup (map id cipherSuites) /\
  forallb isUint16 (map id cipherSuites) = true.
Proof.
  split; [|split; [apply distinct_NoDup|]; reflexivity].
  unfold catalog.
  repeat (constructor; [split; [apply distinct_NoDup|]; reflexivity|]).
  constructor.
Qed.
